(** * Resource lifetime tracking (package [resource]): model and properties

    A shallow embedding of [handle.go] (the [Handle] record and
    [buildPanicMsg]) and of the tracker ([Track], [Untrack], [cleanup],
    [profileName]).  The Go runtime facilities the package calls
    ([runtime/pprof] profiles, [runtime.AddCleanup], [runtime.Callers],
    [runtime.CallersFrames], [reflect.TypeOf]) are modelled by small
    executable definitions that follow their documented behaviour. *)

From Stdlib Require Import ZArith String Ascii List Lia DecimalString.
From stdpp Require Import gmap strings list fin_maps.

Open Scope string_scope.

(** ** Values of the Go side *)

(** A program counter, as stored in a [[]uintptr]. *)
Definition uintptr := Z.

(** A [runtime.Frame], restricted to the three fields the package prints. *)
Record Frame := mkFrame {
  Function : string;
  File : string;
  Line : Z
}.

(** The zero [runtime.Frame], returned by [Frames.Next] when there is
    nothing to return. *)
Definition zeroFrame : Frame := mkFrame "" "" 0.

(** A [runtime.Cleanup] is identified by the number the runtime gave it. *)
Definition Cleanup := nat.

(** [type Handle struct { c; typ; profile; pcs }].  The atomic pointer [c]
    is [None] when it holds nil; the slice [pcs] is [None] when it is nil,
    which Go distinguishes from an empty non-nil slice. *)
Record Handle := mkHandle {
  c : option Cleanup;
  typ : string;
  profile : string;
  pcs : option (list uintptr)
}.

(** The value [new(Handle)] points to. *)
Definition zeroHandle : Handle := mkHandle None "" "" None.

(** A non-nil [*T] passed as the resource: its address and the name of
    [T] as [reflect] prints it (for example [resource.Resource]).
    Resources and handles live in one address space, and two pointers
    are the same exactly when their addresses are equal: a resource
    object of its own has an address other than the handle's, while in
    [Track(h, h)], with [T] being [Handle], or when the handle is the
    first field of the resource struct itself rather than a pointer
    field, the address of the resource is the address of the handle. *)
Record Resource := mkResource {
  r_addr : nat;
  r_type : string
}.

(** ** Process state *)

(** One custom [pprof.Profile]: the map [m] from added values (here
    handle addresses) to the stack recorded by [Add]. *)
Abbreviation Profile := (gmap nat (list uintptr)).

(** An entry of the log of invocations of the failure behaviour: which
    cleanup fired, for which handle, and the message it was given. *)
Record Failure := mkFailure {
  f_cleanup : Cleanup;
  f_handle : nat;
  f_msg : string
}.

Record State := mkState {
  (** handles by address; an address never written holds [zeroHandle] *)
  heap : gmap nat Handle;
  (** the custom profiles registered with [runtime/pprof], by name *)
  profiles : gmap string Profile;
  (** cleanups registered with the runtime and neither stopped nor run:
      number, address of the resource, address of the handle argument *)
  cleanups : gmap Cleanup (nat * nat);
  (** number the runtime gives to the next cleanup *)
  next_cleanup : Cleanup;
  (** invocations of the failure behaviour so far *)
  failures : list Failure
}.

Definition init_state : State := mkState ∅ ∅ ∅ 0 [].

Definition set_heap (f : gmap nat Handle → gmap nat Handle) (s : State) : State :=
  mkState (f (heap s)) (profiles s) (cleanups s) (next_cleanup s) (failures s).

Definition set_profiles (f : gmap string Profile → gmap string Profile) (s : State) : State :=
  mkState (heap s) (f (profiles s)) (cleanups s) (next_cleanup s) (failures s).

(** Reading and updating the handle at an address. *)
Definition load (s : State) (a : nat) : Handle := default zeroHandle (heap s !! a).

Definition store (a : nat) (f : Handle → Handle) (s : State) : State :=
  set_heap (fun hp => <[a := f (default zeroHandle (hp !! a))]> hp) s.

Definition set_c (v : option Cleanup) (h : Handle) : Handle :=
  mkHandle v (typ h) (profile h) (pcs h).
Definition set_typ (v : string) (h : Handle) : Handle :=
  mkHandle (c h) v (profile h) (pcs h).
Definition set_profile (v : string) (h : Handle) : Handle :=
  mkHandle (c h) (typ h) v (pcs h).
Definition set_pcs (v : option (list uintptr)) (h : Handle) : Handle :=
  mkHandle (c h) (typ h) (profile h) v.

(** [NewHandle]: allocates a fresh zero handle and returns its address. *)
Definition NewHandle (s : State) : nat * State :=
  let a := fresh (dom (heap s)) in
  (a, set_heap (fun hp => <[a := zeroHandle]> hp) s).

(** The result of running a statement sequence: it returned, or it
    panicked with a message; either way the state reached is kept. *)
Inductive Outcome :=
  | Returned (s : State)
  | Panicked (msg : string) (s : State).

Definition andThen (o : Outcome) (k : State → Outcome) : Outcome :=
  match o with
  | Returned s => k s
  | Panicked msg s => Panicked msg s
  end.

Notation "'do' s <- o ; k" := (andThen o (fun s => k))
  (at level 10, s name, o at level 100, k at level 200).

Definition final_state (o : Outcome) : State :=
  match o with Returned s => s | Panicked _ s => s end.

Definition returned (o : Outcome) : bool :=
  match o with Returned _ => true | Panicked _ _ => false end.

(** ** The runtime: stacks and frames *)

(** [runtime.Callers(skip, buf)] on a goroutine whose stack is [stack],
    innermost frame first, index 0 being the frame of [Callers] itself:
    the program counters written to [buf], at most [len(buf)] of them. *)
Definition runtime_Callers (skip : nat) (buflen : nat) (stack : list uintptr) : list uintptr :=
  firstn buflen (skipn skip stack).

(** [runtime.CallersFrames]: every program counter expands to the frames
    the symbol table gives for it (several when calls were inlined). *)
Definition runtime_CallersFrames (symtab : uintptr → list Frame) (callers : list uintptr) : list Frame :=
  flat_map symtab callers.

(** [Frames.Next]: the next frame, whether more follow, and the rest.
    With no frame left it returns the zero frame and [false]. *)
Definition Frames_Next (frames : list Frame) : Frame * bool * list Frame :=
  match frames with
  | [] => (zeroFrame, false, [])
  | [f] => (f, false, [])
  | f :: rest => (f, true, rest)
  end.

(** [fmt.Sprintf("%d", n)]. *)
Definition Sprintf_d (n : Z) : string := NilZero.string_of_int (Z.to_int n).

(** The newline and the tab of the Go string literals. *)
Definition nl : string := String (ascii_of_nat 10) EmptyString.
Definition tab : string := String (ascii_of_nat 9) EmptyString.

(** [fmt.Sprintf("%s\n\t%s:%d\n", frame.Function, frame.File, frame.Line)]. *)
Definition frame_text (f : Frame) : string :=
  Function f +:+ nl +:+ tab +:+ File f +:+ ":" +:+ Sprintf_d (Line f) +:+ nl.

(** The loop of [buildPanicMsg]: [Next] is called before the test of
    [more], so the body runs at least once.  The fuel bounds the number
    of iterations; [S (length frames)] always suffices. *)
Fixpoint frames_loop (fuel : nat) (frames : list Frame) (msg : string) : string :=
  match fuel with
  | O => msg
  | S fuel' =>
      let '(frame, more, rest) := Frames_Next frames in
      let msg' := msg +:+ frame_text frame in
      if more then frames_loop fuel' rest msg' else msg'
  end.

(** ** handle.go *)

(** [func (h *Handle) buildPanicMsg() string]. *)
Definition buildPanicMsg (symtab : uintptr → list Frame) (h : Handle) : string :=
  let msg := typ h +:+ " became unreachable without being released!" in
  match pcs h with
  | Some callers =>
      let msg := msg +:+ nl +:+ "It started being tracked at:" +:+ nl in
      let frames := runtime_CallersFrames symtab callers in
      frames_loop (S (length frames)) frames msg
  | None => msg
  end.

(** ** The tracker *)

Definition collectStack : bool := true.
Definition pprofEnabled : bool := true.
Definition pprofPrefix : string := "resource/".

(** [reflect.TypeOf(resource).String()] for [resource] of type [*T]: the
    pointer type prints as a star followed by the element type. *)
Definition reflect_TypeOf_String (r : Resource) : string := "*" +:+ r_type r.

(** [reflect.TypeOf(resource).Elem().String()]. *)
Definition reflect_TypeOf_Elem_String (r : Resource) : string := r_type r.

(** [func profileName(resource any) string]. *)
Definition profileName (r : Resource) : string :=
  pprofPrefix +:+ reflect_TypeOf_Elem_String r.

(** [var cleanup = func(h *Handle)]: builds the message and panics with
    it.  It touches nothing else. *)
Definition cleanup (symtab : uintptr → list Frame) (h : nat) (s : State) : Outcome :=
  let msg := buildPanicMsg symtab (load s h) in
  Panicked msg s.

(** *** runtime/pprof *)

(** [pprof.Lookup(name)]: the profile registered under [name], or nil.
    A profile is referred to by its name. *)
Definition pprof_Lookup (name : string) (s : State) : option string :=
  match profiles s !! name with
  | Some _ => Some name
  | None => None
  end.

(** [pprof.NewProfile(name)]: panics on an empty name and on a name in use. *)
Definition pprof_NewProfile (name : string) (s : State) : Outcome :=
  if decide (name = "") then Panicked "pprof: NewProfile with empty name" s
  else match profiles s !! name with
       | Some _ => Panicked ("pprof: NewProfile name already in use: " +:+ name) s
       | None => Returned (set_profiles (fun ps => <[name := ∅]> ps) s)
       end.

(** The program counter [Add] records when [skip] leaves no frame. *)
Definition lostProfileEvent : uintptr := 0%Z.

(** [Profile.Add(value, skip)] on the profile named [p], called on a
    goroutine whose stack is [stack] with the frame of [Add] at index 0
    (so that the [skip+1] of its [runtime.Callers] call lands on index
    [skip] of [stack]).  It panics when [value] is already in the profile. *)
Definition Profile_Add (p : string) (value : nat) (skip : nat) (stack : list uintptr) (s : State) : Outcome :=
  let stk := firstn 32 (skipn skip stack) in
  let stk := match stk with [] => [lostProfileEvent] | _ => stk end in
  match profiles s !! p with
  | None => Panicked "pprof: use of uninitialized Profile" s
  | Some m =>
      match m !! value with
      | Some _ => Panicked "pprof: Profile.Add of duplicate value" s
      | None => Returned (set_profiles (fun ps => <[p := <[value := stk]> m]> ps) s)
      end
  end.

(** [Profile.Remove(value)]: deleting an absent value does nothing. *)
Definition Profile_Remove (p : string) (value : nat) (s : State) : State :=
  set_profiles (fun ps => match ps !! p with
                          | Some m => <[p := delete value m]> ps
                          | None => ps
                          end) s.

(** [Profile.Count()]; a name with no profile counts zero members. *)
Definition Profile_Count (p : string) (s : State) : nat :=
  match profiles s !! p with
  | Some m => size m
  | None => 0
  end.

(** Membership of a value in the profile named [p]. *)
Definition member (p : string) (value : nat) (s : State) : bool :=
  match profiles s !! p with
  | Some m => bool_decide (is_Some (m !! value))
  | None => false
  end.

(** *** runtime cleanups *)

(** The message [runtime.AddCleanup] panics with when its argument is a
    pointer equal to the pointer the cleanup is attached to. *)
Definition AddCleanup_ptr_is_arg : string :=
  "runtime.AddCleanup: ptr is equal to arg, cleanup will never run".

(** [runtime.AddCleanup(resource, cleanup, h)]: panics when [h] is the
    address of the resource; otherwise registers the call and returns
    its number.  The pointer is not nil here ([Track] has checked it),
    and it is taken to point to an ordinary heap object (the runtime
    also refuses arena-allocated memory). *)
Definition runtime_AddCleanup (r : Resource) (h : nat) (s : State)
    : string + Cleanup * State :=
  if decide (r_addr r = h) then inl AddCleanup_ptr_is_arg
  else
    let id := next_cleanup s in
    inr (id, mkState (heap s) (profiles s) (<[id := (r_addr r, h)]> (cleanups s))
               (S id) (failures s)).

(** [Cleanup.Stop()]: the call is cancelled; stopping a cleanup that
    is no longer registered does nothing. *)
Definition Cleanup_Stop (id : Cleanup) (s : State) : State :=
  mkState (heap s) (profiles s) (delete id (cleanups s)) (next_cleanup s) (failures s).

(** The collector found the resource of cleanup [id] unreachable and
    runs the call: [cleanup(h)] is invoked once and the registration is
    gone.  The invocation and its panic message are logged; the state
    the failure behaviour left is kept, so that executions in which the
    panic is intercepted are covered too. *)
Definition runtime_runCleanup (symtab : uintptr → list Frame) (id : Cleanup) (s : State) : State :=
  match cleanups s !! id with
  | None => s
  | Some (_, h) =>
      let s1 := mkState (heap s) (profiles s) (delete id (cleanups s))
                  (next_cleanup s) (failures s) in
      match cleanup symtab h s1 with
      | Panicked msg s2 =>
          mkState (heap s2) (profiles s2) (cleanups s2) (next_cleanup s2)
            (failures s2 ++ [mkFailure id h msg])
      | Returned s2 => s2
      end
  end.

(** *** Track *)

(** The lookup-or-create of lines 141-154.  [pprofM] is held around the
    second lookup and the creation; taken as one step it has no effect
    on the state. *)
Definition lookup_or_create (prof : string) (s : State) : Outcome :=
  match pprof_Lookup prof s with
  | Some _ => Returned s
  | None =>
      match pprof_Lookup prof s with
      | Some _ => Returned s
      | None => pprof_NewProfile prof s
      end
  end.

(** [func Track[T any](resource *T, h *Handle)].  [stack] is the stack of
    the calling goroutine while [Track] runs, innermost first: index 0
    is the frame of the function [Track] has called, index 1 the frame
    of [Track], the rest its callers. *)
Definition Track (resource : option Resource) (h : option nat)
    (stack : list uintptr) (s : State) : Outcome :=
  match resource with
  | None => Panicked "resource must not be nil" s
  | Some r =>
  match h with
  | None => Panicked "handle must not be nil" s
  | Some h =>
      do s <-
      (if pprofEnabled then
         let prof := profileName r in
         do s <- lookup_or_create prof s;
         do s <- Profile_Add prof h 2 stack s;
         Returned (store h (set_profile prof) s)
       else Returned s);
      let s := store h (set_typ (reflect_TypeOf_String r)) s in
      let s := if collectStack
               then store h (set_pcs (Some (runtime_Callers 2 32 stack))) s
               else s in
      match runtime_AddCleanup r h s with
      | inl msg => Panicked msg s
      | inr (cl, s) => Returned (store h (set_c (Some cl)) s)
      end
  end
  end.

(** *** Untrack *)

(** [func Untrack[T any](resource *T, h *Handle)]. *)
Definition Untrack (resource : option Resource) (h : option nat) (s : State) : Outcome :=
  match resource with
  | None => Panicked "resource must not be nil" s
  | Some r =>
  match h with
  | None => Panicked "handle must not be nil" s
  | Some h =>
      (* h.c.Swap(nil) *)
      let old := c (load s h) in
      let s := store h (set_c None) s in
      let s := match old with
               | Some cl => Cleanup_Stop cl s
               | None => s
               end in
      if pprofEnabled then
        match pprof_Lookup (profile (load s h)) s with
        | None => Panicked "resource is not tracked" s
        | Some p => Returned (Profile_Remove p h s)
        end
      else Returned s
  end
  end.

(** ** Executions *)

(** What a process does with the tracker, one call at a time: a call of
    [Track], a call of [Untrack], or the collector running a registered
    cleanup whose resource it found unreachable. *)
Inductive Op :=
  | OpTrack (resource : option Resource) (h : option nat) (stack : list uintptr)
  | OpUntrack (resource : option Resource) (h : option nat)
  | OpCollect (id : Cleanup).

Definition exec (symtab : uintptr → list Frame) (o : Op) (s : State) : Outcome :=
  match o with
  | OpTrack resource h stack => Track resource h stack s
  | OpUntrack resource h => Untrack resource h s
  | OpCollect id => Returned (runtime_runCleanup symtab id s)
  end.

(** A panic of [Track] or [Untrack] ends the process: nothing runs after it. *)
Fixpoint run (symtab : uintptr → list Frame) (ops : list Op) (s : State) : Outcome :=
  match ops with
  | [] => Returned s
  | o :: ops' => do s <- exec symtab o s; run symtab ops' s
  end.

(** [o] is not a call of [Track] on handle [h]. *)
Definition not_track (h : nat) (o : Op) : bool :=
  match o with
  | OpTrack _ (Some a) _ => negb (Nat.eqb a h)
  | _ => true
  end.

(** No call of [Track] on handle [h] in [ops]. *)
Definition never_tracked (h : nat) (ops : list Op) : bool :=
  forallb (not_track h) ops.

(** [o] neither runs cleanup [cl] nor calls [Track] on handle [h]. *)
Definition quiet_op (cl : Cleanup) (h : nat) (o : Op) : bool :=
  match o with
  | OpCollect id => negb (Nat.eqb id cl)
  | _ => not_track h o
  end.

(** While the resource of a session is reachable and its handle is used
    for that session only, the collector does not run the session's
    cleanup and [Track] is not called on the handle again. *)
Definition quiet (cl : Cleanup) (h : nat) (ops : list Op) : bool :=
  forallb (quiet_op cl h) ops.

(** The handles with a tracking session open after [ops], each with the
    name of the type of the resource it tracks: [Track] opens a session,
    [Untrack] closes it. *)
Fixpoint sessions (ops : list Op) (acc : gmap nat string) : gmap nat string :=
  match ops with
  | [] => acc
  | OpTrack (Some r) (Some h) _ :: ops' => sessions ops' (<[h := r_type r]> acc)
  | OpUntrack (Some _) (Some h) :: ops' => sessions ops' (delete h acc)
  | _ :: ops' => sessions ops' acc
  end.

(** The number of resources of the type named [T] that were tracked and
    not yet untracked after [ops]. *)
Definition outstanding (T : string) (ops : list Op) : nat :=
  size (filter (fun kv => kv.2 = T) (sessions ops ∅)).

(** The usage rule of the package: [Track] is not called on a handle
    whose session is still open. *)
Fixpoint disciplined (ops : list Op) (acc : gmap nat string) : bool :=
  match ops with
  | [] => true
  | OpTrack (Some r) (Some h) _ :: ops' =>
      match acc !! h with
      | Some _ => false
      | None => disciplined ops' (<[h := r_type r]> acc)
      end
  | OpUntrack (Some _) (Some h) :: ops' => disciplined ops' (delete h acc)
  | _ :: ops' => disciplined ops' acc
  end.

(** A handle is tracked while its cleanup token is live. *)
Definition tracked (s : State) (h : nat) : bool :=
  match c (load s h) with Some _ => true | None => false end.

(** ** Concurrent calls of Untrack *)

(** Where a call of [Untrack] stands: before the nil checks, before the
    swap of line 190, before [Stop] with the token it swapped out, before
    [runtime.KeepAlive], before the lookup of line 198, before [Remove]
    on the profile it found, returned, or panicked. *)
Inductive UntrackPc :=
  | AtEntry
  | AtSwap
  | AtStop (cl : Cleanup)
  | AtKeepAlive
  | AtLookup
  | AtRemove (p : string)
  | Done
  | Crashed (msg : string).

(** What a step did, as far as the properties below are concerned. *)
Inductive Event :=
  | EvSwap (old : option Cleanup)
  | EvStop (cl : Cleanup)
  | EvRemove (p : string) (h : nat)
  | EvOther.

(** One atomic step of [Untrack(resource, h)]. *)
Definition Untrack_step (resource : option Resource) (h : option nat)
    (pc : UntrackPc) (s : State) : UntrackPc * State * Event :=
  match pc with
  | AtEntry =>
      match resource, h with
      | None, _ => (Crashed "resource must not be nil", s, EvOther)
      | Some _, None => (Crashed "handle must not be nil", s, EvOther)
      | Some _, Some _ => (AtSwap, s, EvOther)
      end
  | AtSwap =>
      match h with
      | Some a =>
          let old := c (load s a) in
          let s := store a (set_c None) s in
          (match old with Some cl => AtStop cl | None => AtKeepAlive end, s, EvSwap old)
      | None => (Crashed "handle must not be nil", s, EvOther)
      end
  | AtStop cl => (AtKeepAlive, Cleanup_Stop cl s, EvStop cl)
  | AtKeepAlive => (if pprofEnabled then AtLookup else Done, s, EvOther)
  | AtLookup =>
      match h with
      | Some a =>
          match pprof_Lookup (profile (load s a)) s with
          | None => (Crashed "resource is not tracked", s, EvOther)
          | Some p => (AtRemove p, s, EvOther)
          end
      | None => (Crashed "handle must not be nil", s, EvOther)
      end
  | AtRemove p =>
      match h with
      | Some a => (Done, Profile_Remove p a s, EvRemove p a)
      | None => (Crashed "handle must not be nil", s, EvOther)
      end
  | Done => (Done, s, EvOther)
  | Crashed msg => (Crashed msg, s, EvOther)
  end.

(** A goroutine running [Untrack]. *)
Record Thread := mkThread {
  t_resource : option Resource;
  t_h : option nat;
  t_pc : UntrackPc
}.

(** The shared state, the goroutines, and the steps taken so far, each
    with the index of the goroutine that took it. *)
Record Config := mkConfig {
  cfg_state : State;
  cfg_threads : list Thread;
  cfg_trace : list (nat * Event)
}.

(** Goroutine [i] takes its next step. *)
Definition sched_step (cfg : Config) (i : nat) : Config :=
  match cfg_threads cfg !! i with
  | None => cfg
  | Some t =>
      let '(pc, s, ev) := Untrack_step (t_resource t) (t_h t) (t_pc t) (cfg_state cfg) in
      mkConfig s (<[i := mkThread (t_resource t) (t_h t) pc]> (cfg_threads cfg))
        (cfg_trace cfg ++ [(i, ev)])
  end.

(** The goroutines step in the order the schedule [sched] gives. *)
Definition run_sched (sched : list nat) (cfg : Config) : Config :=
  fold_left sched_step sched cfg.

(** [n] goroutines about to call [Untrack(resource, h)]. *)
Definition spawn (n : nat) (resource : option Resource) (h : option nat) (s : State) : Config :=
  mkConfig s (replicate n (mkThread resource h AtEntry)) [].

(** A call of [Untrack] takes at most six steps; a schedule lets [n]
    goroutines finish when it gives each of them six turns. *)
Definition lets_finish (n : nat) (sched : list nat) : bool :=
  forallb (fun i => Nat.leb 6 (count_occ Nat.eq_dec sched i)) (seq 0 n).

Definition is_win (e : nat * Event) : bool :=
  match e.2 with EvSwap (Some _) => true | _ => false end.
Definition is_lose (e : nat * Event) : bool :=
  match e.2 with EvSwap None => true | _ => false end.
Definition is_stop (e : nat * Event) : bool :=
  match e.2 with EvStop _ => true | _ => false end.
Definition is_remove (e : nat * Event) : bool :=
  match e.2 with EvRemove _ _ => true | _ => false end.

Definition count_ev (f : nat * Event → bool) (tr : list (nat * Event)) : nat :=
  length (List.filter f tr).

Definition all_done (cfg : Config) : bool :=
  forallb (fun t => match t_pc t with Done => true | _ => false end) (cfg_threads cfg).

(** ** Concurrent calls of Track *)

(** Where a call of [Track] stands: before the nil checks, before the
    lookup of line 141, before [pprofM.Lock], before the lookup of line
    149, before [NewProfile], before [pprofM.Unlock], before [Add],
    before the writes of [h.profile], [h.typ] and [h.pcs], before
    [AddCleanup], before the store of the token it got, returned, or
    panicked. *)
Inductive TrackPc :=
  | TEntry
  | TLookup
  | TLock
  | TLookup2
  | TNew
  | TUnlock
  | TAdd
  | TSetProfile
  | TSetTyp
  | TSetPcs
  | TAddCleanup
  | TStore (cl : Cleanup)
  | TDone
  | TCrashed (msg : string).

(** One atomic step of [Track(resource, h)] taken by goroutine [i], with
    [mutex] the holder of [pprofM], if any.  A goroutine at [Lock] waits
    while another holds the mutex.  A panic under the mutex leaves it
    held: the unlock is not deferred.  The nil checks are the first
    step; no later position is reached with a nil argument. *)
Definition Track_step (i : nat) (resource : option Resource) (h : option nat)
    (stack : list uintptr) (pc : TrackPc) (mutex : option nat) (s : State)
    : TrackPc * option nat * State :=
  match resource, h with
  | None, _ =>
      match pc with
      | TDone | TCrashed _ => (pc, mutex, s)
      | _ => (TCrashed "resource must not be nil", mutex, s)
      end
  | Some _, None =>
      match pc with
      | TDone | TCrashed _ => (pc, mutex, s)
      | _ => (TCrashed "handle must not be nil", mutex, s)
      end
  | Some r, Some a =>
      let prof := profileName r in
      match pc with
      | TEntry => (if pprofEnabled then TLookup else TSetTyp, mutex, s)
      | TLookup =>
          match pprof_Lookup prof s with
          | Some _ => (TAdd, mutex, s)
          | None => (TLock, mutex, s)
          end
      | TLock =>
          match mutex with
          | None => (TLookup2, Some i, s)
          | Some _ => (TLock, mutex, s)
          end
      | TLookup2 =>
          match pprof_Lookup prof s with
          | Some _ => (TUnlock, mutex, s)
          | None => (TNew, mutex, s)
          end
      | TNew =>
          match pprof_NewProfile prof s with
          | Returned s' => (TUnlock, mutex, s')
          | Panicked msg s' => (TCrashed msg, mutex, s')
          end
      | TUnlock => (TAdd, None, s)
      | TAdd =>
          match Profile_Add prof a 2 stack s with
          | Returned s' => (TSetProfile, mutex, s')
          | Panicked msg s' => (TCrashed msg, mutex, s')
          end
      | TSetProfile => (TSetTyp, mutex, store a (set_profile prof) s)
      | TSetTyp =>
          (if collectStack then TSetPcs else TAddCleanup, mutex,
           store a (set_typ (reflect_TypeOf_String r)) s)
      | TSetPcs =>
          (TAddCleanup, mutex, store a (set_pcs (Some (runtime_Callers 2 32 stack))) s)
      | TAddCleanup =>
          match runtime_AddCleanup r a s with
          | inl msg => (TCrashed msg, mutex, s)
          | inr (cl, s') => (TStore cl, mutex, s')
          end
      | TStore cl => (TDone, mutex, store a (set_c (Some cl)) s)
      | TDone => (TDone, mutex, s)
      | TCrashed msg => (TCrashed msg, mutex, s)
      end
  end.

(** A goroutine running [Track]. *)
Record TrackThread := mkTrackThread {
  tt_resource : option Resource;
  tt_h : option nat;
  tt_stack : list uintptr;
  tt_pc : TrackPc
}.

(** The shared state, the holder of [pprofM] and the goroutines. *)
Record TrackConfig := mkTrackConfig {
  tc_state : State;
  tc_mutex : option nat;
  tc_threads : list TrackThread
}.

(** Goroutine [i] takes its next step. *)
Definition tsched_step (cfg : TrackConfig) (i : nat) : TrackConfig :=
  match tc_threads cfg !! i with
  | None => cfg
  | Some t =>
      let '(pc, mutex, s) :=
        Track_step i (tt_resource t) (tt_h t) (tt_stack t) (tt_pc t)
          (tc_mutex cfg) (tc_state cfg) in
      mkTrackConfig s mutex
        (<[i := mkTrackThread (tt_resource t) (tt_h t) (tt_stack t) pc]> (tc_threads cfg))
  end.

Definition run_tsched (sched : list nat) (cfg : TrackConfig) : TrackConfig :=
  fold_left tsched_step sched cfg.

(** A call [Track(&resource, h)] with both arguments non-nil. *)
Record Call := mkCall {
  call_resource : Resource;
  call_h : nat;
  call_stack : list uintptr
}.

Definition thread_of (c : Call) (pc : TrackPc) : TrackThread :=
  mkTrackThread (Some (call_resource c)) (Some (call_h c)) (call_stack c) pc.

(** One goroutine per call, each about to enter [Track]; the mutex is free. *)
Definition tspawn (calls : list Call) (s : State) : TrackConfig :=
  mkTrackConfig s None (map (fun c => thread_of c TEntry) calls).

(** The schedule that gives every one of [n] goroutines a turn, in
    order, [rounds] times over. *)
Fixpoint round_robin (n rounds : nat) : list nat :=
  match rounds with
  | O => []
  | S k => (seq 0 n ++ round_robin n k)%list
  end.

(** The steps a call of [Track] may still take. *)
Definition tsteps_left (pc : TrackPc) : nat :=
  match pc with
  | TEntry => 12
  | TLookup => 11
  | TLock => 10
  | TLookup2 => 9
  | TNew => 8
  | TUnlock => 7
  | TAdd => 6
  | TSetProfile => 5
  | TSetTyp => 4
  | TSetPcs => 3
  | TAddCleanup => 2
  | TStore _ => 1
  | TDone | TCrashed _ => 0
  end.

Definition tmeasure (cfg : TrackConfig) : nat :=
  sum_list_with (fun t => tsteps_left (tt_pc t)) (tc_threads cfg).

(** The call holds [pprofM]. *)
Definition holds_lock (pc : TrackPc) : bool :=
  match pc with TLookup2 | TNew | TUnlock => true | _ => false end.

(** The call has added its handle to the group. *)
Definition past_add (pc : TrackPc) : bool :=
  match pc with
  | TSetProfile | TSetTyp | TSetPcs | TAddCleanup | TStore _ | TDone => true
  | _ => false
  end.

(** The call has written [h.profile]. *)
Definition past_setprofile (pc : TrackPc) : bool :=
  match pc with
  | TSetTyp | TSetPcs | TAddCleanup | TStore _ | TDone => true
  | _ => false
  end.

Definition all_tdone (cfg : TrackConfig) : bool :=
  forallb (fun t => match tt_pc t with TDone => true | _ => false end) (tc_threads cfg).

Definition no_tcrash (cfg : TrackConfig) : bool :=
  forallb (fun t => match tt_pc t with TCrashed _ => false | _ => true end) (tc_threads cfg).

(** How many of the calls are for a resource whose group is [p]. *)
Definition calls_for (p : string) (calls : list Call) : nat :=
  sum_list_with (fun c => if decide (profileName (call_resource c) = p) then 1 else 0) calls.

(** How many goroutines have added their handle to group [p]. *)
Definition added_to (p : string) (ts : list TrackThread) : nat :=
  sum_list_with
    (fun t => match tt_resource t with
              | Some r => if decide (profileName r = p)
                          then (if past_add (tt_pc t) then 1 else 0) else 0
              | None => 0
              end) ts.

(** What holds while the calls [calls] of [Track] race from state [s0]. *)
Definition track_inv (calls : list Call) (s0 : State) (cfg : TrackConfig) : Prop :=
  let st := tc_state cfg in
  let ts := tc_threads cfg in
  (* the goroutines are the calls, each at some position *)
  Forall2 (fun t c => ∃ pc, t = thread_of c pc) ts calls ∧
  (* nobody panicked *)
  (∀ i t msg, ts !! i = Some t → tt_pc t ≠ TCrashed msg) ∧
  (* the mutex is held by the one goroutine between Lock and Unlock *)
  (∀ i t, ts !! i = Some t → (holds_lock (tt_pc t) = true ↔ tc_mutex cfg = Some i)) ∧
  (∀ i, tc_mutex cfg = Some i → is_Some (ts !! i)) ∧
  (* a goroutine about to create its group finds none, one about to
     unlock or add finds its group *)
  (∀ i t r, ts !! i = Some t → tt_resource t = Some r →
     (tt_pc t = TNew → profiles st !! profileName r = None) ∧
     (tt_pc t = TUnlock ∨ tt_pc t = TAdd → is_Some (profiles st !! profileName r))) ∧
  (* the members are those of the start and the handles added since *)
  (∀ p a, member p a st = true →
     member p a s0 = true ∨
     ∃ i t r, ts !! i = Some t ∧ tt_resource t = Some r ∧ tt_h t = Some a ∧
              profileName r = p ∧ past_add (tt_pc t) = true) ∧
  (∀ i t r a, ts !! i = Some t → tt_resource t = Some r → tt_h t = Some a →
     past_add (tt_pc t) = true → member (profileName r) a st = true) ∧
  (∀ p, Profile_Count p st = Profile_Count p s0 + added_to p ts) ∧
  (* what a goroutine has written to its handle *)
  (∀ i t r a, ts !! i = Some t → tt_resource t = Some r → tt_h t = Some a →
     (past_setprofile (tt_pc t) = true → profile (load st a) = profileName r) ∧
     (tt_pc t = TDone → tracked st a = true)).


(** How a step changes the profiles: not at all, by creating the empty
    group of the stepping call, or by adding its handle to its group. *)
Definition profiles_step (prof : string) (a : nat) (pc pc' : TrackPc)
    (st st' : State) : Prop :=
  (profiles st' = profiles st ∧ past_add pc' = past_add pc) ∨
  (pc = TNew ∧ past_add pc' = false ∧ profiles st !! prof = None ∧
   profiles st' = <[prof := ∅]> (profiles st)) ∨
  (pc = TAdd ∧ pc' = TSetProfile ∧
   ∃ m stk, profiles st !! prof = Some m ∧ m !! a = None ∧
            profiles st' = <[prof := <[a := stk]> m]> (profiles st)).

(** [k] steps of one call of [Track] running alone, from position [pc]. *)
Fixpoint Track_steps (k : nat) (resource : option Resource) (h : option nat)
    (stack : list uintptr) (pc : TrackPc) (mutex : option nat) (s : State)
    : TrackPc * option nat * State :=
  match k with
  | O => (pc, mutex, s)
  | S k' =>
      let '(pc', mutex', s') := Track_step 0 resource h stack pc mutex s in
      Track_steps k' resource h stack pc' mutex' s'
  end.

(** ** Lines of a message *)









(** ** Sample values *)

Definition demo_symtab (pc : uintptr) : list Frame :=
  if (pc =? 100)%Z then [mkFrame "main.open" "main.go" 12]
  else if (pc =? 200)%Z then [mkFrame "main.main" "main.go" 40]
  else [].

Definition demo_resource : Resource := mkResource 10 "resource.Resource".
Definition demo_other : Resource := mkResource 11 "resource.Other".
Definition demo_stack : list uintptr := [1; 2; 100; 200]%Z.

(** A session on handle 0, another resource tracked in between. *)
Definition demo_s1 : State :=
  final_state (Track (Some demo_resource) (Some 0) demo_stack init_state).
Definition demo_mid : list Op := [OpTrack (Some demo_other) (Some 1) demo_stack].
Definition demo_s2 : State := final_state (run demo_symtab demo_mid demo_s1).

(** Two resources of one type tracked, the first untracked. *)
Definition demo_trace : list Op :=
  [OpTrack (Some demo_resource) (Some 0) demo_stack;
   OpTrack (Some demo_resource) (Some 1) demo_stack;
   OpUntrack (Some demo_resource) (Some 0)].
Definition demo_trace_state : State := final_state (run demo_symtab demo_trace init_state).

(** Two goroutines taking turns, six steps each. *)
Definition demo_sched : list nat := [0; 1; 0; 1; 1; 0; 0; 1; 0; 1; 1; 0].

(** Two goroutines tracking resources of one type, not seen before, on
    handles 0 and 1, taking turns. *)
Definition demo_calls : list Call :=
  [mkCall demo_resource 0 demo_stack; mkCall demo_resource 1 demo_stack].
Definition demo_tsched : list nat := round_robin 2 16.

(** A handle passed as its own resource: [Track(h, h)]. *)
Definition demo_self : Resource := mkResource 0 "resource.Handle".
Definition demo_self_state : State :=
  final_state (Track (Some demo_self) (Some 0) demo_stack init_state).

(** One resource tracked with handle 1. *)
Definition demo_pre : list Op := [OpTrack (Some demo_resource) (Some 1) demo_stack].
Definition demo_pre_state : State := final_state (run demo_symtab demo_pre init_state).

(** ** Auxiliary notions for the statements *)

(** The stack [Add] files the handle under. *)
Definition added_stack (stack : list uintptr) : list uintptr :=
  match firstn 32 (skipn 2 stack) with
  | [] => [lostProfileEvent]
  | stk => stk
  end.

Definition tracked_handle (r : Resource) (stack : list uintptr) (cl : Cleanup) : Handle :=
  mkHandle (Some cl) (reflect_TypeOf_String r) (profileName r)
    (Some (runtime_Callers 2 32 stack)).

(** The handle as [Track] leaves it when [runtime.AddCleanup] panics:
    the fields are written, the token is the one it held before. *)
Definition enrolled_handle (r : Resource) (stack : list uintptr) (old : option Cleanup)
    : Handle :=
  mkHandle old (reflect_TypeOf_String r) (profileName r)
    (Some (runtime_Callers 2 32 stack)).

(** The facts every state of an execution satisfies: no profile has the
    empty name, and the numbers of the cleanups registered or run so far
    lie below the next number the runtime gives out. *)
Definition wf (s : State) : Prop :=
  profiles s !! "" = None ∧
  (∀ id, is_Some (cleanups s !! id) → id < next_cleanup s) ∧
  (∀ f, f ∈ failures s → f_cleanup f < next_cleanup s).

(** The session that [Track(r, h)] opened with cleanup [cl] is still
    open: the cleanup has not run, the handle still names the group of
    [r], and the handle holds the token unless the cleanup was stopped. *)
Definition session_open (r : Resource) (h : nat) (cl : Cleanup) (s : State) : Prop :=
  cl < next_cleanup s ∧
  (∀ f, f ∈ failures s → f_cleanup f ≠ cl) ∧
  profile (load s h) = profileName r ∧
  is_Some (profiles s !! profileName r) ∧
  (c (load s h) = Some cl ∨ cleanups s !! cl = None).

(** Cleanup [cl] was given out, is no longer registered, and has not run. *)
Definition disarmed (cl : Cleanup) (s : State) : Prop :=
  cl < next_cleanup s ∧
  cleanups s !! cl = None ∧
  (∀ f, f ∈ failures s → f_cleanup f ≠ cl).

(** The open sessions [S] and the registry agree: a handle with an open
    session for a resource of type [T] names the group of [T] and is a
    member of it, and every member of a group has an open session for a
    resource of the group's type. *)
Definition groups_match (S : gmap nat string) (s : State) : Prop :=
  (∀ a T, S !! a = Some T →
     profile (load s a) = pprofPrefix +:+ T ∧ member (pprofPrefix +:+ T) a s = true) ∧
  (∀ a p, member p a s = true → ∃ T, p = pprofPrefix +:+ T ∧ S !! a = Some T).

(** Measures on the position of a call of [Untrack]: whether the swap
    was done, whether the call holds a token it has yet to stop, whether
    it returned, and how many steps it may still take. *)
Definition past_swap (pc : UntrackPc) : nat :=
  match pc with
  | AtEntry | AtSwap | Crashed _ => 0
  | _ => 1
  end.

Definition at_stop (pc : UntrackPc) : nat :=
  match pc with AtStop _ => 1 | _ => 0 end.

Definition is_done (pc : UntrackPc) : nat :=
  match pc with Done => 1 | _ => 0 end.

Definition steps_left (pc : UntrackPc) : nat :=
  match pc with
  | AtEntry => 6
  | AtSwap => 5
  | AtStop _ => 4
  | AtKeepAlive => 3
  | AtLookup => 2
  | AtRemove _ => 1
  | Done | Crashed _ => 0
  end.

Definition total (f : UntrackPc → nat) (ts : list Thread) : nat :=
  sum_list_with (fun t => f (t_pc t)) ts.

(** A position that a call racing for token [cl] on a handle filed under
    group [p] can be in. *)
Definition pc_ok (cl : Cleanup) (p : string) (pc : UntrackPc) : Prop :=
  match pc with
  | AtStop cl' => cl' = cl
  | AtRemove p' => p' = p
  | Crashed _ => False
  | _ => True
  end.

(** What holds while [n] calls of [Untrack(r, h)] race, where the handle
    was tracked with token [cl] and filed under group [p], whose members
    were [m] when the calls started. *)
Definition race_inv (r : Resource) (h : nat) (cl : Cleanup) (p : string)
    (m : Profile) (n : nat) (cfg : Config) : Prop :=
  let st := cfg_state cfg in
  let ts := cfg_threads cfg in
  let tr := cfg_trace cfg in
  length ts = n ∧
  Forall (fun t => t_resource t = Some r ∧ t_h t = Some h ∧ pc_ok cl p (t_pc t)) ts ∧
  profile (load st h) = p ∧
  count_ev is_win tr + count_ev is_lose tr = total past_swap ts ∧
  count_ev is_win tr = count_ev is_stop tr + total at_stop ts ∧
  count_ev is_remove tr = total is_done ts ∧
  ((c (load st h) = Some cl ∧ count_ev is_win tr = 0 ∧ count_ev is_lose tr = 0) ∨
   (c (load st h) = None ∧ count_ev is_win tr = 1)) ∧
  ((count_ev is_remove tr = 0 ∧ profiles st !! p = Some m) ∨
   (0 < count_ev is_remove tr ∧ profiles st !! p = Some (delete h m))) ∧
  (0 < count_ev is_stop tr → cleanups st !! cl = None).

(** [k] steps of one call of [Untrack], from position [pc]. *)
Fixpoint Untrack_steps (k : nat) (resource : option Resource) (h : option nat)
    (pc : UntrackPc) (s : State) : UntrackPc * State :=
  match k with
  | O => (pc, s)
  | S k' =>
      let '(pc', s', _) := Untrack_step resource h pc s in
      Untrack_steps k' resource h pc' s'
  end.

(** * Properties *)

(** ** The state accessors *)

Lemma load_store_eq a f s : load (store a f s) a = f (load s a).
Proof. unfold load, store, set_heap; simpl. by rewrite lookup_insert_eq. Qed.

Lemma load_store_ne a b f s : a ≠ b → load (store a f s) b = load s b.
Proof. intros Hne. unfold load, store, set_heap; simpl. by rewrite lookup_insert_ne. Qed.

Lemma load_store a b f s :
  load (store a f s) b = if decide (a = b) then f (load s a) else load s b.
Proof.
  case_decide as Hab.
  - subst. apply load_store_eq.
  - by apply load_store_ne.
Qed.

Lemma profileName_not_empty r : profileName r ≠ "".
Proof. unfold profileName, pprofPrefix. simpl. discriminate. Qed.

Lemma member_true p a s :
  member p a s = true ↔ ∃ m, profiles s !! p = Some m ∧ is_Some (m !! a).
Proof.
  unfold member. destruct (profiles s !! p) as [m|].
  - rewrite bool_decide_eq_true. split; [eauto | by intros (m' & [= <-] & H)].
  - split; [done | by intros (m' & [=] & _)].
Qed.

Lemma member_false p a s :
  member p a s = false ↔ ∀ m, profiles s !! p = Some m → m !! a = None.
Proof.
  unfold member. destruct (profiles s !! p) as [m|].
  - rewrite bool_decide_eq_false, <- eq_None_not_Some.
    split; [by intros H m' [= <-] | eauto].
  - split; [by intros _ m' [=] | done].
Qed.

(** ** What a call of Track leaves behind *)

Lemma Track_outcome r h stack s :
  (member (profileName r) h s = true ∧
   Track (Some r) (Some h) stack s = Panicked "pprof: Profile.Add of duplicate value" s)
  ∨
  (member (profileName r) h s = false ∧
   ∃ s', (∀ a, a ≠ h → load s' a = load s a) ∧
     profiles s' = <[profileName r :=
                      <[h := added_stack stack]> (default ∅ (profiles s !! profileName r))]>
                     (profiles s) ∧
     failures s' = failures s ∧
     ((r_addr r ≠ h ∧
       Track (Some r) (Some h) stack s = Returned s' ∧
       load s' h = tracked_handle r stack (next_cleanup s) ∧
       cleanups s' = <[next_cleanup s := (r_addr r, h)]> (cleanups s) ∧
       next_cleanup s' = S (next_cleanup s))
      ∨
      (r_addr r = h ∧
       Track (Some r) (Some h) stack s = Panicked AddCleanup_ptr_is_arg s' ∧
       load s' h = enrolled_handle r stack (c (load s h)) ∧
       cleanups s' = cleanups s ∧
       next_cleanup s' = next_cleanup s))).
Proof.
  unfold Track, lookup_or_create, pprof_Lookup, pprof_NewProfile, Profile_Add, member,
    tracked_handle, enrolled_handle, added_stack, runtime_AddCleanup, load, store,
    set_heap, set_profiles.
  simpl. destruct (profiles s !! profileName r) as [m|] eqn:Hp.
  - simpl. rewrite Hp. destruct (m !! h) as [stk|] eqn:Hm.
    + left. split; [by apply bool_decide_eq_true | done].
    + right. split; [apply bool_decide_eq_false; by intros [? ?] |].
      simpl. destruct (decide (r_addr r = h)) as [Heq|Hne].
      * eexists. split; [| split; [| split]]; cycle 3.
        { right. split; [done |]. split; [reflexivity |]. simpl.
          by rewrite !lookup_insert_eq. }
        { intros a Ha. simpl. by rewrite !lookup_insert_ne. }
        { simpl. by destruct (take 32 (drop 2 stack)). }
        { done. }
      * eexists. split; [| split; [| split]]; cycle 3.
        { left. split; [done |]. split; [reflexivity |]. simpl.
          by rewrite !lookup_insert_eq. }
        { intros a Ha. simpl. by rewrite !lookup_insert_ne. }
        { simpl. by destruct (take 32 (drop 2 stack)). }
        { done. }
  - right. split; [done |].
    destruct (decide (profileName r = "")) as [He|_]; [by apply profileName_not_empty in He |].
    simpl. rewrite lookup_insert_eq, lookup_empty.
    simpl. destruct (decide (r_addr r = h)) as [Heq|Hne].
    + eexists. split; [| split; [| split]]; cycle 3.
      { right. split; [done |]. split; [reflexivity |]. simpl.
        by rewrite !lookup_insert_eq. }
      { intros a Ha. simpl. by rewrite !lookup_insert_ne. }
      { simpl. rewrite insert_insert_eq. by destruct (take 32 (drop 2 stack)). }
      { done. }
    + eexists. split; [| split; [| split]]; cycle 3.
      { left. split; [done |]. split; [reflexivity |]. simpl.
        by rewrite !lookup_insert_eq. }
      { intros a Ha. simpl. by rewrite !lookup_insert_ne. }
      { simpl. rewrite insert_insert_eq. by destruct (take 32 (drop 2 stack)). }
      { done. }
Qed.

(** A returning call of [Track]: the handle was not in the group, the
    resource is not the handle itself, and the call has enrolled the
    handle, written its fields and registered the cleanup. *)
Lemma Track_Returned r h stack s s' :
  Track (Some r) (Some h) stack s = Returned s' →
  member (profileName r) h s = false ∧
  r_addr r ≠ h ∧
  load s' h = tracked_handle r stack (next_cleanup s) ∧
  (∀ a, a ≠ h → load s' a = load s a) ∧
  profiles s' = <[profileName r :=
                   <[h := added_stack stack]> (default ∅ (profiles s !! profileName r))]>
                  (profiles s) ∧
  cleanups s' = <[next_cleanup s := (r_addr r, h)]> (cleanups s) ∧
  next_cleanup s' = S (next_cleanup s) ∧
  failures s' = failures s.
Proof.
  intros Ht.
  destruct (Track_outcome r h stack s)
    as [[_ Hp]|[Hm (s1 & Hother & Hps & Hf & [(Hne & Hr & Hl & Hc & Hn)|(_ & Hr & _)])]];
    [congruence | | congruence].
  rewrite Ht in Hr. injection Hr as <-. done.
Qed.

(** ** What a call of Untrack does *)

Lemma Untrack_outcome r h s :
  let p := profile (load s h) in
  let s' := final_state (Untrack (Some r) (Some h) s) in
  Untrack (Some r) (Some h) s =
    match profiles s !! p with
    | Some _ => Returned s'
    | None => Panicked "resource is not tracked" s'
    end ∧
  load s' h = set_c None (load s h) ∧
  (∀ a, a ≠ h → load s' a = load s a) ∧
  profiles s' = match profiles s !! p with
                | Some m => <[p := delete h m]> (profiles s)
                | None => profiles s
                end ∧
  cleanups s' = match c (load s h) with
                | Some cl => delete cl (cleanups s)
                | None => cleanups s
                end ∧
  next_cleanup s' = next_cleanup s ∧
  failures s' = failures s.
Proof.
  unfold Untrack, pprof_Lookup, Profile_Remove, Cleanup_Stop, load, store,
    set_heap, set_profiles.
  simpl. destruct (c (default zeroHandle (heap s !! h))) as [cl|] eqn:Hc; simpl;
    rewrite lookup_insert_eq; simpl;
    destruct (profiles s !! profile (default zeroHandle (heap s !! h))) as [m|] eqn:Hp;
    simpl; rewrite ?lookup_insert_eq, ?Hp; simpl;
    repeat split; try done; intros a Ha; by rewrite lookup_insert_ne.
Qed.

Lemma Untrack_nil_resource h s :
  Untrack None h s = Panicked "resource must not be nil" s.
Proof. reflexivity. Qed.

Lemma Untrack_nil_handle r s :
  Untrack (Some r) None s = Panicked "handle must not be nil" s.
Proof. reflexivity. Qed.

(** ** The collector running a cleanup *)

Lemma runCleanup_frame symtab id s :
  let s' := runtime_runCleanup symtab id s in
  heap s' = heap s ∧ profiles s' = profiles s ∧
  cleanups s' = delete id (cleanups s) ∧
  next_cleanup s' = next_cleanup s ∧
  (∀ f, f ∈ failures s' → f ∈ failures s ∨ (f_cleanup f = id ∧ is_Some (cleanups s !! id))).
Proof.
  unfold runtime_runCleanup, cleanup.
  destruct (cleanups s !! id) as [[ra h]|] eqn:Hid; simpl.
  - repeat split; try done. intros f Hf.
    apply elem_of_app in Hf as [Hf|Hf]; [by left |].
    apply list_elem_of_singleton in Hf. subst. right. simpl. eauto.
  - repeat split; try done.
    + symmetry. by apply delete_id.
    + intros f Hf. by left.
Qed.

(** ** Track: when it panics, and what it stores *)

Lemma Track_returns_iff r h stack s :
  returned (Track (Some r) (Some h) stack s) = true ↔
  member (profileName r) h s = false ∧ r_addr r ≠ h.
Proof.
  destruct (Track_outcome r h stack s)
    as [[Hm Ht]|[Hm (s' & _ & _ & _ & [(Hne & Ht & _)|(Heq & Ht & _)])]];
    rewrite Ht, Hm; simpl.
  - split; [done | by intros [? _]].
  - split; [by intros _ | done].
  - split; [done | by intros [_ ?]].
Qed.

(** C3 (amended): [Track] panics exactly when the resource is nil, the
    handle is nil, the handle is already a member of the registry group
    of the resource's type, or the resource and the handle are one and
    the same pointer, which [runtime.AddCleanup] refuses; in every other
    case it returns. *)
Theorem Track_panics_iff resource h stack s :
  returned (Track resource h stack s) = false ↔
  resource = None ∨ h = None ∨
  ∃ r a, resource = Some r ∧ h = Some a ∧
         (member (profileName r) a s = true ∨ r_addr r = a).
Proof.
  destruct resource as [r|]; [| split; [by left | done]].
  destruct h as [a|]; [| split; [by right; left | done]].
  pose proof (Track_returns_iff r a stack s) as Hiff.
  destruct (returned (Track (Some r) (Some a) stack s)) eqn:Hret.
  - destruct (proj1 Hiff eq_refl) as [Hm Hne]. split; [done |].
    intros [Hr|[Hr|(r' & a' & [= <-] & [= <-] & [Hm'|Heq])]]; congruence.
  - split; [| done]. intros _. right. right. exists r, a.
    split; [done |]. split; [done |].
    destruct (member (profileName r) a s) eqn:Hm; [by left | right].
    destruct (decide (r_addr r = a)) as [Heq|Hne]; [done |].
    assert (false = true) by (by apply Hiff). done.
Qed.

(** C3 (as stated) fails: a handle tracked with a resource of one type
    is tracked again with a resource of another type, and this second
    call of [Track] returns. *)
Lemma Track_tracked_handle_other_type_returns :
  let s1 := final_state (Track (Some demo_resource) (Some 0) demo_stack init_state) in
  returned (Track (Some demo_resource) (Some 0) demo_stack init_state) = true ∧
  tracked s1 0 = true ∧
  member (profileName demo_resource) 0 s1 = true ∧
  returned (Track (Some demo_other) (Some 0) demo_stack s1) = true.
Proof. vm_compute. done. Qed.

(** C3 (as stated) fails the other way too: with a fresh handle passed
    as its own resource no argument is nil and the handle is not
    tracked, yet [Track] panics, in [runtime.AddCleanup]. *)
Lemma Track_handle_as_resource_panics :
  tracked init_state 0 = false ∧
  member (profileName demo_self) 0 init_state = false ∧
  Track (Some demo_self) (Some 0) demo_stack init_state =
    Panicked AddCleanup_ptr_is_arg demo_self_state.
Proof. vm_compute. done. Qed.

(** C7 (the code departs from the claim): after
    [Track(&Resource{}, h)] the handle's [typ] is the name of the pointer
    type, with its star, while the group key is the prefix followed by
    the name of the element type; the key is not the prefix followed by
    [typ]. *)
Theorem Track_group_key_is_not_prefix_typ :
  let s := final_state (Track (Some demo_resource) (Some 0) demo_stack init_state) in
  returned (Track (Some demo_resource) (Some 0) demo_stack init_state) = true ∧
  typ (load s 0) = "*resource.Resource" ∧
  profile (load s 0) = "resource/resource.Resource" ∧
  profile (load s 0) ≠ pprofPrefix +:+ typ (load s 0).
Proof. vm_compute. repeat split; discriminate. Qed.

(** The same for every returning call: the group key is the prefix
    followed by the element type's name, and [typ] is that name with a
    star before it. *)
Lemma Track_group_key r h stack s s' :
  Track (Some r) (Some h) stack s = Returned s' →
  profile (load s' h) = pprofPrefix +:+ r_type r ∧
  typ (load s' h) = "*" +:+ r_type r ∧
  is_Some (profiles s' !! (pprofPrefix +:+ r_type r)) ∧
  member (pprofPrefix +:+ r_type r) h s' = true.
Proof.
  intros Ht.
  destruct (Track_Returned r h stack s s' Ht) as (_ & _ & Hl & _ & Hps & _).
  rewrite Hl. simpl.
  repeat split.
  - rewrite Hps. unfold profileName, reflect_TypeOf_Elem_String.
    rewrite lookup_insert_eq. eauto.
  - apply member_true. rewrite Hps. unfold profileName, reflect_TypeOf_Elem_String.
    rewrite lookup_insert_eq. eexists. split; [done |]. rewrite lookup_insert_eq. eauto.
Qed.

(** C8: when [Track] runs with its own frame and the frame of its callee
    on top of the callers' frames, the stack it stores in the handle is
    the callers' (at most 32 program counters), starting at the call
    site of [Track]; the frames it resolves to start with the frames of
    that call site. *)
Theorem Track_stores_callers_stack symtab r h callee own callers s s' :
  Track (Some r) (Some h) (callee :: own :: callers) s = Returned s' →
  pcs (load s' h) = Some (firstn 32 callers) ∧
  ∀ site rest, callers = site :: rest →
    ∃ more, pcs (load s' h) = Some (site :: firstn 31 rest) ∧
            runtime_CallersFrames symtab (site :: firstn 31 rest) = (symtab site ++ more)%list.
Proof.
  intros Ht.
  destruct (Track_Returned r h (callee :: own :: callers) s s' Ht) as (_ & _ & Hl & _).
  rewrite Hl. simpl.
  split; [done |].
  intros site rest ->. eexists. split; [done |]. reflexivity.
Qed.

Lemma Track_stores_callers_stack_witness :
  Track (Some demo_resource) (Some 0) demo_stack init_state =
    Returned (final_state (Track (Some demo_resource) (Some 0) demo_stack init_state)) ∧
  pcs (load (final_state (Track (Some demo_resource) (Some 0) demo_stack init_state)) 0)
    = Some [100; 200]%Z.
Proof.
  split; [vm_compute; reflexivity |].
  exact (proj1 (Track_stores_callers_stack demo_symtab demo_resource 0 1%Z 2%Z
                  [100; 200]%Z init_state _ eq_refl)).
Defined.

(** ** The failure path and the registry *)

(** C9: neither the default failure behaviour nor the collector's run of
    a cleanup changes a registry group: the profiles, every group's
    count and every membership are as before. *)
Theorem cleanup_leaves_groups symtab id h s :
  profiles (final_state (cleanup symtab h s)) = profiles s ∧
  profiles (runtime_runCleanup symtab id s) = profiles s ∧
  (∀ p, Profile_Count p (runtime_runCleanup symtab id s) = Profile_Count p s) ∧
  (∀ p a, member p a (runtime_runCleanup symtab id s) = member p a s).
Proof.
  destruct (runCleanup_frame symtab id s) as (_ & Hp & _).
  unfold Profile_Count, member. rewrite Hp. done.
Qed.

(** What a call of [Untrack] leaves alone. *)
Lemma Untrack_fields resource h s :
  let s' := final_state (Untrack resource h s) in
  (∀ a, typ (load s' a) = typ (load s a) ∧
        profile (load s' a) = profile (load s a) ∧
        pcs (load s' a) = pcs (load s a)) ∧
  (∀ a, h ≠ Some a → load s' a = load s a) ∧
  (∀ p a, h ≠ Some a → member p a s' = member p a s) ∧
  (∀ p a, h = Some a → p ≠ profile (load s a) → profiles s' !! p = profiles s !! p) ∧
  failures s' = failures s ∧
  next_cleanup s' = next_cleanup s.
Proof.
  destruct resource as [r|]; [| by simpl].
  destruct h as [h|]; [| by simpl].
  destruct (Untrack_outcome r h s) as (_ & Hh & Ho & Hp & _ & Hn & Hf).
  cbv zeta in *.
  set (s' := final_state (Untrack (Some r) (Some h) s)) in *.
  repeat split; try done.
  - destruct (decide (a = h)) as [->|Ha]; [by rewrite Hh | by rewrite Ho].
  - destruct (decide (a = h)) as [->|Ha]; [by rewrite Hh | by rewrite Ho].
  - destruct (decide (a = h)) as [->|Ha]; [by rewrite Hh | by rewrite Ho].
  - intros a Ha. apply Ho. congruence.
  - intros p a Ha. assert (a ≠ h) as Hne by congruence.
    unfold member. rewrite Hp.
    destruct (profiles s !! profile (load s h)) as [m|] eqn:Hm; [| done].
    destruct (decide (p = profile (load s h))) as [->|Hpn].
    + rewrite lookup_insert_eq, Hm. by rewrite lookup_delete_ne.
    + by rewrite lookup_insert_ne.
  - intros p a [= <-] Hpn. rewrite Hp.
    destruct (profiles s !! profile (load s h)) as [m|]; [| done].
    by rewrite lookup_insert_ne.
Qed.

(** C10: a call of [Untrack] changes the handle's token, which it
    clears, and the handle's membership in its group, which it ends,
    and nothing else.  It leaves [typ], [profile] and [pcs] of every
    handle as they were; it changes nothing of any other handle, no
    membership of any other value and no recorded stack of another
    member, no group but the handle's, and it neither registers nor
    unregisters a group; the only cleanup it cancels is the one whose
    token the handle held, every other registration stays; the log of
    failures and the numbering of cleanups are as before. *)
Theorem Untrack_frame resource h s :
  let s' := final_state (Untrack resource h s) in
  (∀ a, typ (load s' a) = typ (load s a) ∧
        profile (load s' a) = profile (load s a) ∧
        pcs (load s' a) = pcs (load s a)) ∧
  (∀ a, h ≠ Some a → load s' a = load s a) ∧
  (∀ p a, h ≠ Some a → member p a s' = member p a s) ∧
  (∀ p a, h = Some a → p ≠ profile (load s a) → profiles s' !! p = profiles s !! p) ∧
  failures s' = failures s ∧
  next_cleanup s' = next_cleanup s ∧
  (∀ id, (∀ a, h = Some a → c (load s a) ≠ Some id) →
         cleanups s' !! id = cleanups s !! id) ∧
  (∀ id, is_Some (cleanups s' !! id) → is_Some (cleanups s !! id)) ∧
  (∀ p, is_Some (profiles s' !! p) ↔ is_Some (profiles s !! p)) ∧
  (∀ p m m' a, profiles s !! p = Some m → profiles s' !! p = Some m' →
               h ≠ Some a → m' !! a = m !! a) ∧
  (∀ r a, resource = Some r → h = Some a →
          c (load s' a) = None ∧
          member (profile (load s a)) a s' = false ∧
          (∀ id, c (load s a) = Some id → cleanups s' !! id = None)).
Proof.
  destruct (Untrack_fields resource h s) as (H1 & H2 & H3 & H4 & H5 & H6).
  cbv zeta in *.
  split; [done |]. split; [done |]. split; [done |]. split; [done |].
  split; [done |]. split; [done |].
  destruct resource as [r|]; [| simpl; repeat split; try done; intros; congruence].
  destruct h as [h|]; [| simpl; repeat split; try done; intros; congruence].
  destruct (Untrack_outcome r h s) as (_ & Hh & _ & Hp & Hc & _).
  cbv zeta in *.
  set (s' := final_state (Untrack (Some r) (Some h) s)) in *.
  split; [| split; [| split; [| split]]].
  - intros id Hid. rewrite Hc. specialize (Hid h eq_refl).
    destruct (c (load s h)) as [cl|]; [| done].
    rewrite lookup_delete_ne; [done | congruence].
  - intros id. rewrite Hc. destruct (c (load s h)) as [cl|]; [| done].
    intros [x Hx]. apply lookup_delete_Some in Hx as [_ Hx]. eauto.
  - intros p. rewrite Hp.
    destruct (profiles s !! profile (load s h)) as [m|] eqn:Hm; [| done].
    destruct (decide (p = profile (load s h))) as [->|Hne].
    + rewrite lookup_insert_eq, Hm. split; eauto.
    + by rewrite lookup_insert_ne.
  - intros p m m' a Hm Hm' Ha. rewrite Hp in Hm'.
    destruct (profiles s !! profile (load s h)) as [m0|] eqn:Hm0; [| congruence].
    destruct (decide (p = profile (load s h))) as [->|Hne].
    + rewrite lookup_insert_eq in Hm'. injection Hm' as <-.
      rewrite Hm0 in Hm. injection Hm as <-.
      rewrite lookup_delete_ne; [done | congruence].
    + rewrite lookup_insert_ne in Hm' by done. congruence.
  - intros r' a [= <-] [= <-]. split; [by rewrite Hh |]. split.
    + apply member_false. intros m Hm. rewrite Hp in Hm.
      destruct (profiles s !! profile (load s h)) as [m0|] eqn:Hm0; [| congruence].
      rewrite lookup_insert_eq in Hm. injection Hm as <-. apply lookup_delete_eq.
    + intros id Hid. rewrite Hc, Hid. apply lookup_delete_eq.
Qed.

(** ** The panic message *)

Lemma append_nil_l (a : string) : "" +:+ a = a.
Proof. reflexivity. Qed.

Lemma append_cons x (a b : string) : String x a +:+ b = String x (a +:+ b).
Proof. reflexivity. Qed.

Lemma append_nil_r (a : string) : a +:+ "" = a.
Proof. induction a as [|x a IH]; [done |]. by rewrite append_cons, IH. Qed.

Lemma append_assoc' (a b d : string) : (a +:+ b) +:+ d = a +:+ (b +:+ d).
Proof. induction a as [|x a IH]; [done |]. by rewrite !append_cons, IH. Qed.






(** The texts of the frames, one after the other. *)
Lemma concat_frame_text f frames :
  String.concat "" (map frame_text (f :: frames)) =
  frame_text f +:+ String.concat "" (map frame_text frames).
Proof.
  simpl. destruct frames as [|g frames]; simpl; [| done].
  by rewrite append_nil_r.
Qed.

(** With fuel for every frame, the loop appends the text of each frame
    of a non-empty sequence, in order. *)
Lemma frames_loop_nonempty f frames fuel msg :
  length frames < fuel →
  frames_loop fuel (f :: frames) msg = msg +:+ String.concat "" (map frame_text (f :: frames)).
Proof.
  revert f fuel msg. induction frames as [|g frames IH]; intros f fuel msg Hlen.
  - destruct fuel as [|fuel]; [simpl in Hlen; lia |].
    rewrite concat_frame_text. simpl. by rewrite append_nil_r.
  - destruct fuel as [|fuel]; [simpl in Hlen; lia |].
    change (frames_loop (S fuel) (f :: g :: frames) msg)
      with (frames_loop fuel (g :: frames) (msg +:+ frame_text f)).
    rewrite IH by (simpl in Hlen; lia).
    rewrite (concat_frame_text f). by rewrite append_assoc'.
Qed.

(** On an empty sequence the loop still runs once, on the zero frame. *)
Lemma frames_loop_empty fuel msg :
  frames_loop (S fuel) [] msg = msg +:+ frame_text zeroFrame.
Proof. reflexivity. Qed.


(** The message as one string. *)
Lemma buildPanicMsg_text symtab h :
  let first := typ h +:+ " became unreachable without being released!" in
  buildPanicMsg symtab h =
  match pcs h with
  | None => first
  | Some callers =>
      first +:+ nl +:+ "It started being tracked at:" +:+ nl +:+
      match runtime_CallersFrames symtab callers with
      | [] => frame_text zeroFrame
      | frames => String.concat "" (map frame_text frames)
      end
  end.
Proof.
  unfold buildPanicMsg. destruct (pcs h) as [callers|]; [| done].
  destruct (runtime_CallersFrames symtab callers) as [|f frames] eqn:Hf.
  - rewrite frames_loop_empty. by rewrite !append_assoc'.
  - rewrite frames_loop_nonempty by (simpl; lia). by rewrite !append_assoc'.
Qed.

(** ** Executions: what every state satisfies *)

Lemma final_state_run_cons symtab o ops s :
  final_state (run symtab (o :: ops) s) =
  match exec symtab o s with
  | Returned s1 => final_state (run symtab ops s1)
  | Panicked _ s1 => s1
  end.
Proof. simpl. by destruct (exec symtab o s). Qed.

(** A property kept by every step is kept by an execution. *)
Lemma run_invariant symtab (P : State → Prop) (Q : Op → bool) :
  (∀ o s, Q o = true → P s → P (final_state (exec symtab o s))) →
  ∀ ops s, forallb Q ops = true → P s → P (final_state (run symtab ops s)).
Proof.
  intros Hstep. induction ops as [|o ops IH]; intros s Hq Hs; [done |].
  simpl in Hq. apply andb_true_iff in Hq as [Ho Hq].
  rewrite final_state_run_cons.
  specialize (Hstep o s Ho Hs).
  destruct (exec symtab o s) as [s1|msg s1]; simpl in Hstep; [by apply IH | done].
Qed.

Lemma forallb_true_const {A} (l : list A) : forallb (fun _ => true) l = true.
Proof. by induction l. Qed.

Lemma run_invariant_all symtab (P : State → Prop) :
  (∀ o s, P s → P (final_state (exec symtab o s))) →
  ∀ ops s, P s → P (final_state (run symtab ops s)).
Proof.
  intros Hstep ops s. apply (run_invariant symtab P (fun _ => true)); [auto |].
  apply forallb_true_const.
Qed.

(** The state a call of [Track] ends in, whether it returns or panics:
    the state it started in, or one with the handle enrolled and its
    group key written, and the cleanup registered unless
    [runtime.AddCleanup] panicked. *)
Lemma Track_final resource h stack s :
  let s' := final_state (Track resource h stack s) in
  s' = s ∨
  ∃ r a, resource = Some r ∧ h = Some a ∧
    member (profileName r) a s = false ∧
    profile (load s' a) = profileName r ∧
    (∀ b, b ≠ a → load s' b = load s b) ∧
    profiles s' = <[profileName r :=
                     <[a := added_stack stack]> (default ∅ (profiles s !! profileName r))]>
                    (profiles s) ∧
    failures s' = failures s ∧
    ((cleanups s' = cleanups s ∧ next_cleanup s' = next_cleanup s) ∨
     (Track resource h stack s = Returned s' ∧
      cleanups s' = <[next_cleanup s := (r_addr r, a)]> (cleanups s) ∧
      next_cleanup s' = S (next_cleanup s))).
Proof.
  destruct resource as [r|]; [| by left].
  destruct h as [a|]; [| by left].
  destruct (Track_outcome r a stack s)
    as [[Hm Ht]|[Hm (s1 & Hother & Hps & Hf & [(Hne & Ht & Hl & Hc & Hn)|(Heq & Ht & Hl & Hc & Hn)])]].
  - left. by rewrite Ht.
  - right. exists r, a. rewrite Ht. simpl.
    split; [done |]. split; [done |]. split; [done |]. split; [by rewrite Hl |].
    split; [done |]. split; [done |]. split; [done |]. by right.
  - right. exists r, a. rewrite Ht. simpl.
    split; [done |]. split; [done |]. split; [done |]. split; [by rewrite Hl |].
    split; [done |]. split; [done |]. split; [done |]. by left.
Qed.

Lemma wf_init : wf init_state.
Proof.
  repeat split.
  - intros id [x Hx]. simpl in Hx. by rewrite lookup_empty in Hx.
  - intros f Hf. simpl in Hf. by apply not_elem_of_nil in Hf.
Qed.

Lemma exec_wf symtab o s : wf s → wf (final_state (exec symtab o s)).
Proof.
  intros (Hempty & Hcl & Hfail). destruct o as [resource h stack|resource h|id]; simpl.
  - destruct (Track_final resource h stack s)
      as [->|(r & a & -> & -> & _ & _ & _ & Hp & Hf & [[Hc Hn]|(_ & Hc & Hn)])]; [done | |].
    + repeat split.
      * rewrite Hp. rewrite lookup_insert_ne; [done |]. apply profileName_not_empty.
      * intros id. rewrite Hc, Hn. apply Hcl.
      * intros f. rewrite Hf, Hn. apply Hfail.
    + repeat split.
      * rewrite Hp. rewrite lookup_insert_ne; [done |]. apply profileName_not_empty.
      * intros id. rewrite Hc, Hn. intros Hid.
        destruct (decide (next_cleanup s = id)) as [<-|Hne]; [lia |].
        rewrite lookup_insert_ne in Hid by done. apply Hcl in Hid. lia.
      * intros f. rewrite Hf, Hn. intros Hin. apply Hfail in Hin. lia.
  - destruct resource as [r|]; [| done]. destruct h as [h|]; [| done].
    destruct (Untrack_outcome r h s) as (_ & _ & _ & Hp & Hc & Hn & Hf).
    cbv zeta in *. repeat split.
    + rewrite Hp. destruct (profiles s !! profile (load s h)) as [m|] eqn:Hm; [| done].
      rewrite lookup_insert_ne; [done |]. intros He. rewrite He in Hm. congruence.
    + intros id. rewrite Hc, Hn. intros Hid. apply Hcl.
      destruct (c (load s h)) as [cl|]; [| done].
      destruct (decide (cl = id)) as [->|Hne]; [by rewrite lookup_delete_eq in Hid; destruct Hid |].
      by rewrite lookup_delete_ne in Hid.
    + intros f. rewrite Hf, Hn. apply Hfail.
  - destruct (runCleanup_frame symtab id s) as (_ & Hp & Hc & Hn & Hf).
    cbv zeta in *. repeat split.
    + by rewrite Hp.
    + intros id'. rewrite Hc, Hn. intros Hid. apply Hcl.
      destruct (decide (id = id')) as [->|Hne]; [by rewrite lookup_delete_eq in Hid; destruct Hid |].
      by rewrite lookup_delete_ne in Hid.
    + intros f Hin. rewrite Hn. apply Hf in Hin as [Hin|[-> Hin]]; [by apply Hfail | by apply Hcl].
Qed.

Lemma run_wf symtab ops s : wf s → wf (final_state (run symtab ops s)).
Proof. apply run_invariant_all. intros o s'. apply exec_wf. Qed.

(** ** The panic message of a handle of an execution *)








(** ** Untrack without Track *)

Lemma exec_keeps_zero symtab h o s :
  not_track h o = true → load s h = zeroHandle →
  load (final_state (exec symtab o s)) h = zeroHandle.
Proof.
  intros Ho Hz. destruct o as [resource a stack|resource a|id]; simpl.
  - destruct (Track_final resource a stack s)
      as [->|(r & b & -> & -> & _ & _ & Hother & _)]; [done |].
    simpl in Ho. apply negb_true_iff, Nat.eqb_neq in Ho.
    rewrite Hother by done. done.
  - destruct (Untrack_fields resource a s) as (Hfields & Hother & _). cbv zeta in *.
    destruct (decide (a = Some h)) as [->|Hne]; [| by rewrite Hother].
    destruct resource as [r|]; [| done].
    destruct (Untrack_outcome r h s) as (_ & Hh & _). cbv zeta in Hh.
    rewrite Hh, Hz. reflexivity.
  - destruct (runCleanup_frame symtab id s) as (Hh & _). cbv zeta in Hh.
    unfold load. by rewrite Hh.
Qed.

Lemma never_tracked_zero symtab pre h :
  never_tracked h pre = true →
  load (final_state (run symtab pre init_state)) h = zeroHandle.
Proof.
  intros Hn.
  apply (run_invariant symtab (fun s => load s h = zeroHandle) (not_track h)); [| done | done].
  intros o s. apply exec_keeps_zero.
Qed.

(** On a handle on which [Track] was never called, [Untrack] invokes no
    failure behaviour and reports no leak: it cancels no cleanup,
    changes no group and no handle; but it does not return, it panics
    with the message that the resource is not tracked. *)
Lemma Untrack_without_Track symtab pre s r h :
  run symtab pre init_state = Returned s →
  never_tracked h pre = true →
  ∃ s', Untrack (Some r) (Some h) s = Panicked "resource is not tracked" s' ∧
        failures s' = failures s ∧
        cleanups s' = cleanups s ∧
        profiles s' = profiles s ∧
        ∀ a, load s' a = load s a.
Proof.
  intros Hrun Hnever.
  pose proof (never_tracked_zero symtab pre h Hnever) as Hz.
  pose proof (run_wf symtab pre init_state wf_init) as (Hempty & _).
  rewrite Hrun in Hz, Hempty. simpl in Hz, Hempty.
  destruct (Untrack_outcome r h s) as (Hout & Hh & Hother & Hp & Hc & _ & Hf).
  cbv zeta in *. rewrite Hz in *. simpl in *. rewrite Hempty in *.
  eexists. split; [exact Hout |]. repeat split; try done.
  intros a. destruct (decide (a = h)) as [->|Hne]; [by rewrite Hh, Hz | by apply Hother].
Qed.

Lemma Untrack_without_Track_witness :
  run demo_symtab demo_pre init_state = Returned demo_pre_state ∧
  never_tracked 0 demo_pre = true ∧
  returned (Untrack (Some demo_other) (Some 0) demo_pre_state) = false.
Proof.
  assert (run demo_symtab demo_pre init_state = Returned demo_pre_state) as Hrun
    by (vm_compute; reflexivity).
  split; [exact Hrun |]. split; [reflexivity |].
  destruct (Untrack_without_Track demo_symtab demo_pre demo_pre_state demo_other 0
              Hrun eq_refl) as (s' & Hs' & _).
  rewrite Hs'. reflexivity.
Defined.

(** C4 (the code departs from the claim): [Untrack] on a handle just
    made by [NewHandle], on which [Track] was never called, as in the
    subtest [UntrackWithoutTrack], does not return: the handle names no
    group, the lookup of the empty name finds none, and the call panics
    with the message that the resource is not tracked.  The failure
    behaviour is not invoked. *)
Theorem Untrack_fresh_handle_panics :
  let '(h, s) := NewHandle init_state in
  ∃ s', Untrack (Some demo_resource) (Some h) s = Panicked "resource is not tracked" s' ∧
        returned (Untrack (Some demo_resource) (Some h) s) = false ∧
        failures s' = [].
Proof. vm_compute. eexists. repeat split. Qed.

(** ** Track, then Untrack: the cleanup never runs *)

Lemma Track_opens r h stack s0 s1 :
  wf s0 →
  Track (Some r) (Some h) stack s0 = Returned s1 →
  session_open r h (next_cleanup s0) s1.
Proof.
  intros (_ & Hcl & Hfail) Ht.
  destruct (Track_Returned r h stack s0 s1 Ht) as (_ & _ & Hl & _ & Hps & Hc & Hn & Hf).
  repeat split.
  - rewrite Hn. lia.
  - intros f. rewrite Hf. intros Hin%Hfail. lia.
  - by rewrite Hl.
  - rewrite Hps, lookup_insert_eq. eauto.
  - left. by rewrite Hl.
Qed.

Lemma exec_session_open symtab r h cl o s :
  quiet_op cl h o = true →
  session_open r h cl s →
  session_open r h cl (final_state (exec symtab o s)).
Proof.
  intros Hq (Hlt & Hfail & Hprof & Hgrp & Htok).
  destruct o as [resource a stack|resource a|id]; cbn [exec final_state].
  - destruct (Track_final resource a stack s)
      as [->|(r' & b & -> & -> & _ & _ & Hother & Hp & Hf & Hreg)]; [done |].
    simpl in Hq. apply negb_true_iff, Nat.eqb_neq in Hq.
    repeat split.
    + destruct Hreg as [[_ Hn]|(_ & _ & Hn)]; rewrite Hn; lia.
    + intros f. rewrite Hf. apply Hfail.
    + by rewrite Hother.
    + rewrite Hp. destruct (decide (profileName r' = profileName r)) as [->|Hne].
      * rewrite lookup_insert_eq. eauto.
      * by rewrite lookup_insert_ne.
    + rewrite Hother by done.
      destruct Htok as [Htok|Htok]; [by left | right].
      destruct Hreg as [[Hc _]|(_ & Hc & _)]; rewrite Hc; [done |].
      rewrite lookup_insert_ne; [done | lia].
  - destruct resource as [r'|]; [| done]. destruct a as [a|]; [| done].
    destruct (Untrack_outcome r' a s) as (_ & Hh & Hother & Hp & Hc & Hn & Hf).
    cbv zeta in *. repeat split.
    + rewrite Hn. lia.
    + intros f. rewrite Hf. apply Hfail.
    + destruct (decide (h = a)) as [->|Hne]; [by rewrite Hh | by rewrite Hother].
    + rewrite Hp. destruct (profiles s !! profile (load s a)) as [m|]; [| done].
      destruct (decide (profile (load s a) = profileName r)) as [->|Hne].
      * rewrite lookup_insert_eq. eauto.
      * by rewrite lookup_insert_ne.
    + rewrite Hc. destruct (decide (h = a)) as [->|Hne].
      * right. destruct Htok as [Htok|Htok].
        -- rewrite Htok. apply lookup_delete_eq.
        -- destruct (c (load s a)) as [cl'|]; [| done].
           rewrite lookup_delete_None. by right.
      * rewrite Hother by done. destruct Htok as [Htok|Htok]; [by left | right].
        destruct (c (load s a)) as [cl'|]; [| done].
        rewrite lookup_delete_None. by right.
  - simpl in Hq. apply negb_true_iff, Nat.eqb_neq in Hq.
    destruct (runCleanup_frame symtab id s) as (Hh & Hp & Hc & Hn & Hf).
    cbv zeta in *. unfold session_open, load in *. rewrite Hh, Hp, Hc, Hn.
    repeat split; try done.
    + intros f Hin. apply Hf in Hin as [Hin|[Hin _]]; [by apply Hfail | congruence].
    + destruct Htok as [Htok|Htok]; [by left | right].
      rewrite lookup_delete_None. by right.
Qed.

Lemma Untrack_closes r h cl s :
  session_open r h cl s →
  ∃ s', Untrack (Some r) (Some h) s = Returned s' ∧ disarmed cl s'.
Proof.
  intros (Hlt & Hfail & Hprof & [m Hgrp] & Htok).
  destruct (Untrack_outcome r h s) as (Hout & _ & _ & _ & Hc & Hn & Hf).
  cbv zeta in *. rewrite Hprof, Hgrp in Hout.
  eexists. split; [exact Hout |].
  repeat split.
  - rewrite Hn. lia.
  - rewrite Hc. destruct Htok as [Htok|Htok].
    + rewrite Htok. apply lookup_delete_eq.
    + destruct (c (load s h)) as [cl'|]; [| done].
      rewrite lookup_delete_None. by right.
  - intros f. rewrite Hf. apply Hfail.
Qed.

Lemma exec_disarmed symtab cl o s :
  disarmed cl s → disarmed cl (final_state (exec symtab o s)).
Proof.
  intros (Hlt & Hgone & Hfail).
  destruct o as [resource a stack|resource a|id]; cbn [exec final_state].
  - destruct (Track_final resource a stack s)
      as [->|(r' & b & -> & -> & _ & _ & _ & _ & Hf & Hreg)]; [done |].
    repeat split.
    + destruct Hreg as [[_ Hn]|(_ & _ & Hn)]; rewrite Hn; lia.
    + destruct Hreg as [[Hc _]|(_ & Hc & _)]; rewrite Hc; [done |].
      rewrite lookup_insert_ne; [done | lia].
    + intros f. rewrite Hf. apply Hfail.
  - destruct resource as [r'|]; [| done]. destruct a as [a|]; [| done].
    destruct (Untrack_outcome r' a s) as (_ & _ & _ & _ & Hc & Hn & Hf).
    cbv zeta in *. repeat split.
    + rewrite Hn. lia.
    + rewrite Hc. destruct (c (load s a)) as [cl'|]; [| done].
      rewrite lookup_delete_None. by right.
    + intros f. rewrite Hf. apply Hfail.
  - destruct (runCleanup_frame symtab id s) as (_ & _ & Hc & Hn & Hf).
    cbv zeta in *. repeat split.
    + rewrite Hn. lia.
    + rewrite Hc. rewrite lookup_delete_None. by right.
    + intros f Hin. apply Hf in Hin as [Hin|[Hin [x Hx]]]; [by apply Hfail |].
      intros Heq. rewrite Hin in Heq. subst id. congruence.
Qed.

(** C1: in an execution that calls [Track(R, H)] and later [Untrack(R, H)],
    with the resource reachable and the handle used for this session
    only in between, the call of [Track] registers a cleanup for [R]
    with argument [H], [Untrack] returns, and whatever the process and
    the collector do afterwards, the failure behaviour is never invoked
    for that cleanup. *)
Theorem Untrack_prevents_failure symtab pre s0 r h stack s1 mid s2 :
  run symtab pre init_state = Returned s0 →
  Track (Some r) (Some h) stack s0 = Returned s1 →
  quiet (next_cleanup s0) h mid = true →
  run symtab mid s1 = Returned s2 →
  cleanups s1 !! next_cleanup s0 = Some (r_addr r, h) ∧
  ∃ s3, Untrack (Some r) (Some h) s2 = Returned s3 ∧
    ∀ after f, f ∈ failures (final_state (run symtab after s3)) →
               f_cleanup f ≠ next_cleanup s0.
Proof.
  intros Hpre Htrack Hquiet Hmid.
  split.
  { destruct (Track_Returned r h stack s0 s1 Htrack) as (_ & _ & _ & _ & _ & Hc & _).
    rewrite Hc. apply lookup_insert_eq. }
  pose proof (run_wf symtab pre init_state wf_init) as Hwf.
  rewrite Hpre in Hwf. simpl in Hwf.
  pose proof (Track_opens r h stack s0 s1 Hwf Htrack) as Hopen.
  assert (session_open r h (next_cleanup s0) s2) as Hopen2.
  { pose proof (run_invariant symtab (session_open r h (next_cleanup s0))
                  (quiet_op (next_cleanup s0) h)) as Hinv.
    specialize (Hinv (fun o s => exec_session_open symtab r h _ o s) mid s1 Hquiet Hopen).
    by rewrite Hmid in Hinv. }
  destruct (Untrack_closes r h _ s2 Hopen2) as (s3 & Hun & Hdis).
  exists s3. split; [done |].
  intros after.
  pose proof (run_invariant_all symtab (disarmed (next_cleanup s0))
                (fun o s => exec_disarmed symtab _ o s) after s3 Hdis) as (_ & _ & Hfail).
  exact Hfail.
Qed.

Lemma Untrack_prevents_failure_witness :
  run demo_symtab [] init_state = Returned init_state ∧
  Track (Some demo_resource) (Some 0) demo_stack init_state = Returned demo_s1 ∧
  quiet (next_cleanup init_state) 0 demo_mid = true ∧
  run demo_symtab demo_mid demo_s1 = Returned demo_s2 ∧
  cleanups demo_s1 !! next_cleanup init_state = Some (r_addr demo_resource, 0) ∧
  ∃ s3, Untrack (Some demo_resource) (Some 0) demo_s2 = Returned s3 ∧
    ∀ after f, f ∈ failures (final_state (run demo_symtab after s3)) →
               f_cleanup f ≠ next_cleanup init_state.
Proof.
  assert (Track (Some demo_resource) (Some 0) demo_stack init_state = Returned demo_s1)
    as H1 by (vm_compute; reflexivity).
  assert (run demo_symtab demo_mid demo_s1 = Returned demo_s2)
    as H2 by (vm_compute; reflexivity).
  split; [reflexivity |]. split; [exact H1 |]. split; [reflexivity |]. split; [exact H2 |].
  exact (Untrack_prevents_failure demo_symtab [] init_state demo_resource 0 demo_stack
           demo_s1 demo_mid demo_s2 eq_refl H1 eq_refl H2).
Defined.

(** ** Group counts *)

Lemma Track_member r h stack s s' p a :
  Track (Some r) (Some h) stack s = Returned s' →
  member p a s' = true ↔ (p = profileName r ∧ a = h) ∨ member p a s = true.
Proof.
  intros Ht.
  destruct (Track_Returned r h stack s s' Ht) as (_ & _ & _ & _ & Hps & _).
  rewrite !member_true. rewrite Hps.
  destruct (decide (p = profileName r)) as [->|Hne].
  - rewrite lookup_insert_eq. split.
    + intros (m & [= <-] & Hin). destruct (decide (a = h)) as [->|Hah]; [by left | right].
      rewrite lookup_insert_ne in Hin by done.
      destruct (profiles s !! profileName r) as [m0|]; simpl in Hin; [eauto |].
      rewrite lookup_empty in Hin. by destruct Hin.
    + intros [[_ ->]|(m & Hm & Hin)].
      * eexists. split; [done |]. rewrite lookup_insert_eq. eauto.
      * eexists. split; [done |]. rewrite Hm. simpl.
        destruct (decide (h = a)) as [->|Hah]; [rewrite lookup_insert_eq; eauto |].
        by rewrite lookup_insert_ne.
  - rewrite lookup_insert_ne by done. split; [by right |].
    intros [[? _]|H]; [done | exact H].
Qed.

Lemma Untrack_member r h s s' p a :
  Untrack (Some r) (Some h) s = Returned s' →
  member p a s' = true ↔ member p a s = true ∧ ¬ (p = profile (load s h) ∧ a = h).
Proof.
  intros Hu.
  destruct (Untrack_outcome r h s) as (Hout & _ & _ & Hp & _). cbv zeta in *.
  rewrite Hu in Hout, Hp. simpl in Hout, Hp.
  destruct (profiles s !! profile (load s h)) as [m|] eqn:Hm; [| done].
  rewrite !member_true, Hp.
  destruct (decide (p = profile (load s h))) as [->|Hne].
  - rewrite lookup_insert_eq, Hm. split.
    + intros (m' & [= <-] & Hin). destruct (decide (a = h)) as [->|Hah].
      * rewrite lookup_delete_eq in Hin. by destruct Hin.
      * rewrite lookup_delete_ne in Hin by done. split; [eauto | tauto].
    + intros [(m' & [= <-] & Hin) Hnot]. eexists. split; [done |].
      rewrite lookup_delete_ne; [done |]. intros ->. tauto.
  - rewrite lookup_insert_ne by done. split; [| tauto].
    intros H. split; [done | tauto].
Qed.

Lemma groups_match_init : groups_match ∅ init_state.
Proof.
  split.
  - intros a T Ha. by rewrite lookup_empty in Ha.
  - intros a p Hm. apply member_true in Hm as (m & Hm & _).
    simpl in Hm. by rewrite lookup_empty in Hm.
Qed.

Lemma groups_match_Track S r h stack s s' :
  groups_match S s →
  S !! h = None →
  Track (Some r) (Some h) stack s = Returned s' →
  groups_match (<[h := r_type r]> S) s'.
Proof.
  intros [Hin Hout] Hfree Ht.
  destruct (Track_Returned r h stack s s' Ht) as (_ & _ & Hl & Hother & _).
  split.
  - intros a T Ha. rewrite (Track_member r h stack s s' _ a Ht).
    destruct (decide (a = h)) as [->|Hne].
    + rewrite lookup_insert_eq in Ha. injection Ha as <-.
      rewrite Hl. split; [done | by left].
    + rewrite lookup_insert_ne in Ha by done.
      rewrite Hother by done. destruct (Hin a T Ha). split; [done | by right].
  - intros a p Hm. apply (Track_member r h stack s s' p a Ht) in Hm as [[-> ->]|Hm].
    + exists (r_type r). split; [done | apply lookup_insert_eq].
    + destruct (Hout a p Hm) as (T & -> & Ha). exists T. split; [done |].
      rewrite lookup_insert_ne; [done |]. intros <-. congruence.
Qed.

Lemma groups_match_Untrack S r h s s' :
  groups_match S s →
  Untrack (Some r) (Some h) s = Returned s' →
  groups_match (delete h S) s'.
Proof.
  intros [Hin Hout] Hu.
  destruct (Untrack_fields (Some r) (Some h) s) as (Hfields & _). cbv zeta in Hfields.
  rewrite Hu in Hfields. simpl in Hfields.
  split.
  - intros a T Ha. apply lookup_delete_Some in Ha as [Hne Ha].
    destruct (Hin a T Ha) as [Hp Hm].
    destruct (Hfields a) as (_ & -> & _). split; [done |].
    apply (Untrack_member r h s s' _ a Hu). split; [done |]. intros [_ ->]. done.
  - intros a p Hm. apply (Untrack_member r h s s' p a Hu) in Hm as [Hm Hnot].
    destruct (Hout a p Hm) as (T & -> & Ha). exists T. split; [done |].
    apply lookup_delete_Some. split; [| done].
    intros <-. apply Hnot. destruct (Hin h T Ha). done.
Qed.

Lemma groups_match_Collect symtab S id s :
  groups_match S s → groups_match S (runtime_runCleanup symtab id s).
Proof.
  intros [Hin Hout].
  destruct (runCleanup_frame symtab id s) as (Hh & Hp & _). cbv zeta in *.
  unfold groups_match, member, load in *. rewrite Hh, Hp. done.
Qed.

Lemma groups_match_run symtab ops : ∀ S s s',
  groups_match S s →
  run symtab ops s = Returned s' →
  disciplined ops S = true →
  groups_match (sessions ops S) s'.
Proof.
  induction ops as [|o ops IH]; intros S s s' Hm Hrun Hd.
  - simpl in *. by injection Hrun as <-.
  - simpl in Hrun. destruct (exec symtab o s) as [s1|msg s1] eqn:He; [| done].
    simpl in Hrun.
    destruct o as [[r|] [h|] stack|[r|] [h|]|id];
      cbn [exec] in He; cbn [disciplined sessions] in Hd |- *;
      try (simpl in He; done).
    + destruct (S !! h) eqn:Hfree; [done |].
      eapply IH; [| done | done]. by eapply groups_match_Track.
    + eapply IH; [| done | done]. by eapply groups_match_Untrack.
    + injection He as <-. eapply IH; [| done | done]. by apply groups_match_Collect.
Qed.

(** With the sessions and the registry in agreement, the count of the
    group of a type is the number of open sessions for that type. *)
Lemma groups_match_count S s T :
  groups_match S s →
  Profile_Count (pprofPrefix +:+ T) s = size (filter (fun kv : nat * string => kv.2 = T) S).
Proof.
  intros [Hin Hout]. unfold Profile_Count.
  destruct (profiles s !! (pprofPrefix +:+ T)) as [m|] eqn:Hp.
  - rewrite <- (size_dom (D := gset nat) m), <- (size_dom (D := gset nat) (filter _ S)).
    f_equal. apply set_eq. intros a. rewrite !elem_of_dom. split.
    + intros Ha.
      assert (member (pprofPrefix +:+ T) a s = true) as Hm by (apply member_true; eauto).
      destruct (Hout a _ Hm) as (T' & HT & Hs). apply String.app_inj in HT. subst T'.
      exists T. by apply map_lookup_filter_Some.
    + intros [q Hq]. apply map_lookup_filter_Some in Hq as [Hq Hqp]. simpl in Hqp. subst q.
      destruct (Hin a T Hq) as [_ Hm]. apply member_true in Hm as (m' & Hm' & Ha).
      congruence.
  - symmetry. apply map_size_empty_iff. apply map_eq. intros a.
    rewrite lookup_empty. apply map_lookup_filter_None. right. intros q Hq Hqp.
    simpl in Hqp. subst q. destruct (Hin a T Hq) as [_ Hm].
    apply member_true in Hm as (m' & Hm' & _). congruence.
Qed.

Lemma Track_count r h stack s s' :
  Track (Some r) (Some h) stack s = Returned s' →
  Profile_Count (profileName r) s' = S (Profile_Count (profileName r) s).
Proof.
  intros Ht.
  destruct (Track_Returned r h stack s s' Ht) as (Hm & _ & _ & _ & Hps & _).
  unfold Profile_Count. rewrite Hps, lookup_insert_eq.
  rewrite member_false in Hm.
  destruct (profiles s !! profileName r) as [m|] eqn:Hp; simpl.
  - apply map_size_insert_None. by apply Hm.
  - rewrite map_size_insert_None by apply lookup_empty. by rewrite map_size_empty.
Qed.

Lemma Untrack_count r h s :
  member (profile (load s h)) h s = true →
  ∃ s', Untrack (Some r) (Some h) s = Returned s' ∧
        S (Profile_Count (profile (load s h)) s') = Profile_Count (profile (load s h)) s.
Proof.
  intros Hm. apply member_true in Hm as (m & Hp & Hin).
  destruct (Untrack_outcome r h s) as (Hout & _ & _ & Hps & _). cbv zeta in *.
  rewrite Hp in Hout, Hps.
  eexists. split; [exact Hout |].
  unfold Profile_Count. rewrite Hps, lookup_insert_eq, Hp.
  rewrite map_size_delete_Some by done.
  assert (size m ≠ 0); [| lia].
  intros Hz. apply map_size_empty_iff in Hz. subst m. rewrite lookup_empty in Hin.
  by destruct Hin.
Qed.

(** C5: in an execution that follows the usage rule, the count of every
    type's group is the number of resources of that type tracked and not
    yet untracked; a further call of [Track] that returns raises the
    count of its type's group by exactly one, and [Untrack] on a handle
    with an open session returns and lowers the count of the session's
    group by exactly one. *)
Theorem group_count_invariant symtab pre s :
  run symtab pre init_state = Returned s →
  disciplined pre ∅ = true →
  (∀ T, Profile_Count (pprofPrefix +:+ T) s = outstanding T pre) ∧
  (∀ r h stack s', Track (Some r) (Some h) stack s = Returned s' →
     Profile_Count (profileName r) s' = S (Profile_Count (profileName r) s)) ∧
  (∀ r h T, sessions pre ∅ !! h = Some T →
     ∃ s', Untrack (Some r) (Some h) s = Returned s' ∧
           S (Profile_Count (pprofPrefix +:+ T) s') = Profile_Count (pprofPrefix +:+ T) s).
Proof.
  intros Hrun Hd.
  pose proof (groups_match_run symtab pre ∅ init_state s groups_match_init Hrun Hd) as Hm.
  split; [| split].
  - intros T. unfold outstanding. by apply groups_match_count.
  - intros r h stack s'. apply Track_count.
  - intros r h T Hs. destruct Hm as [Hin _]. destruct (Hin h T Hs) as [<- Hmem].
    by apply Untrack_count.
Qed.

Lemma group_count_invariant_witness :
  run demo_symtab demo_trace init_state = Returned demo_trace_state ∧
  disciplined demo_trace ∅ = true ∧
  Profile_Count (pprofPrefix +:+ "resource.Resource") demo_trace_state = 1.
Proof.
  assert (run demo_symtab demo_trace init_state = Returned demo_trace_state)
    as Hrun by (vm_compute; reflexivity).
  split; [exact Hrun |]. split; [reflexivity |].
  exact (proj1 (group_count_invariant demo_symtab demo_trace demo_trace_state Hrun eq_refl)
           "resource.Resource").
Defined.

(** ** Untrack, step by step *)

(** The steps, taken one after the other with nothing in between, are
    the call: six steps end where [Untrack] ends. *)
Lemma Untrack_steps_refine resource h s :
  Untrack_steps 6 resource h AtEntry s =
  match Untrack resource h s with
  | Returned s' => (Done, s')
  | Panicked msg s' => (Crashed msg, s')
  end.
Proof.
  destruct resource as [r|]; [| reflexivity].
  destruct h as [h|]; [| reflexivity].
  unfold Untrack. cbn [Untrack_steps Untrack_step].
  destruct (c (load s h)) as [cl|]; cbn [Untrack_steps Untrack_step pprofEnabled];
    match goal with
    | |- context [pprof_Lookup ?p ?st] => destruct (pprof_Lookup p st)
    end; reflexivity.
Qed.

Lemma total_insert f ts i t pc :
  ts !! i = Some t →
  total f (<[i := mkThread (t_resource t) (t_h t) pc]> ts) + f (t_pc t) = total f ts + f pc.
Proof.
  unfold total. revert i. induction ts as [|t0 ts IH]; intros i Hi; [done |].
  destruct i as [|i]; simpl in *.
  - injection Hi as ->. lia.
  - specialize (IH i Hi). lia.
Qed.

Lemma count_ev_snoc f tr e :
  count_ev f (tr ++ [e])%list = count_ev f tr + (if f e then 1 else 0).
Proof.
  unfold count_ev. rewrite List.filter_app, length_app. simpl.
  destruct (f e); simpl; lia.
Qed.

Lemma run_sched_cons i sched cfg :
  run_sched (i :: sched) cfg = run_sched sched (sched_step cfg i).
Proof. reflexivity. Qed.

(** A goroutine given [k] turns in a row takes [k] steps of its call. *)
Lemma run_sched_turns k : ∀ cfg i t,
  cfg_threads cfg !! i = Some t →
  let '(pc, s) := Untrack_steps k (t_resource t) (t_h t) (t_pc t) (cfg_state cfg) in
  cfg_state (run_sched (replicate k i) cfg) = s ∧
  cfg_threads (run_sched (replicate k i) cfg) !! i
    = Some (mkThread (t_resource t) (t_h t) pc).
Proof.
  induction k as [|k IH]; intros cfg i t Hi.
  - simpl. split; [done |]. by destruct t.
  - cbn [replicate Untrack_steps]. rewrite run_sched_cons.
    destruct (Untrack_step (t_resource t) (t_h t) (t_pc t) (cfg_state cfg))
      as [[pc1 s1] ev] eqn:Hstep.
    assert (cfg_threads (sched_step cfg i) !! i = Some (mkThread (t_resource t) (t_h t) pc1) ∧
            cfg_state (sched_step cfg i) = s1) as [Hi1 Hs1].
    { unfold sched_step. rewrite Hi, Hstep. simpl. split; [| done].
      apply list_lookup_insert_eq. by eapply lookup_lt_Some. }
    specialize (IH (sched_step cfg i) i _ Hi1). simpl in IH. rewrite Hs1 in IH.
    exact IH.
Qed.

(** Six turns in a row are one whole call of [Untrack]: calls made one
    after the other are schedules too. *)
Lemma run_sched_whole_call cfg i t :
  cfg_threads cfg !! i = Some t →
  t_pc t = AtEntry →
  cfg_state (run_sched (replicate 6 i) cfg)
    = final_state (Untrack (t_resource t) (t_h t) (cfg_state cfg)) ∧
  t_pc <$> cfg_threads (run_sched (replicate 6 i) cfg) !! i
    = Some (match Untrack (t_resource t) (t_h t) (cfg_state cfg) with
            | Returned _ => Done
            | Panicked msg _ => Crashed msg
            end).
Proof.
  intros Hi Hpc. pose proof (run_sched_turns 6 cfg i t Hi) as Hturns.
  rewrite Hpc, Untrack_steps_refine in Hturns.
  destruct (Untrack (t_resource t) (t_h t) (cfg_state cfg)) as [s'|msg s'];
    destruct Hturns as [-> ->]; done.
Qed.

Lemma load_Cleanup_Stop cl s a : load (Cleanup_Stop cl s) a = load s a.
Proof. reflexivity. Qed.

Lemma load_Profile_Remove p v s a : load (Profile_Remove p v s) a = load s a.
Proof. reflexivity. Qed.

(** The bookkeeping of a step of goroutine [i] to position [pc]. *)
Ltac race_step Hi pc :=
  pose proof (total_insert past_swap _ _ _ pc Hi);
  pose proof (total_insert at_stop _ _ _ pc Hi);
  pose proof (total_insert is_done _ _ _ pc Hi);
  unfold race_inv; cbn [cfg_state cfg_threads cfg_trace];
  rewrite !count_ev_snoc;
  cbn [is_win is_lose is_stop is_remove snd past_swap at_stop is_done t_pc t_resource t_h] in *;
  split; [by rewrite length_insert |];
  split; [by apply Forall_insert |].

Lemma sched_step_race_inv r h cl p m n cfg i :
  race_inv r h cl p m n cfg → race_inv r h cl p m n (sched_step cfg i).
Proof.
  intros (Hlen & Hall & Hprof & Hswap & Hwin & Hrem & Htok & Hgrp & Hstop).
  unfold sched_step. destruct (cfg_threads cfg !! i) as [t|] eqn:Hi;
    [| by repeat split].
  pose proof (Forall_lookup_1 _ _ _ _ Hall Hi) as (Hr & Hh & Hpc).
  destruct t as [tres th pc]. simpl in Hr, Hh, Hpc. subst tres th.
  destruct cfg as [st ts tr]. cbn [cfg_state cfg_threads cfg_trace] in *.
  assert (same_token :
    (c (load st h) = Some cl ∧ count_ev is_win tr + 0 = 0 ∧ count_ev is_lose tr + 0 = 0) ∨
    (c (load st h) = None ∧ count_ev is_win tr + 0 = 1)).
  { destruct Htok as [Htok|Htok]; [left | right]; repeat split; try apply Htok; lia. }
  assert (same_group :
    (count_ev is_remove tr + 0 = 0 ∧ profiles st !! p = Some m) ∨
    (0 < count_ev is_remove tr + 0 ∧ profiles st !! p = Some (delete h m))).
  { destruct Hgrp as [Hgrp|Hgrp]; [left | right]; repeat split; try apply Hgrp; lia. }
  assert (same_stop : 0 < count_ev is_stop tr + 0 → cleanups st !! cl = None).
  { intros Hs. apply Hstop. lia. }
  destruct pc as [| |cl'| | |p'| |msg]; simpl in Hpc; try done;
    cbn [Untrack_step t_resource t_h t_pc].
  - (* AtEntry *)
    race_step Hi AtSwap.
    split; [done |]. split; [lia |]. split; [lia |]. split; [lia |]. done.
  - (* AtSwap *)
    destruct Htok as [(Hc & Hw & Hl)|(Hc & Hw)]; rewrite Hc.
    + race_step Hi (AtStop cl).
      split; [by rewrite load_store_eq |].
      split; [lia |]. split; [lia |]. split; [lia |].
      split; [right; rewrite load_store_eq; split; [done | lia] |].
      split; [done |]. intros Hs. lia.
    + race_step Hi AtKeepAlive.
      split; [by rewrite load_store_eq |].
      split; [lia |]. split; [lia |]. split; [lia |].
      split; [right; rewrite load_store_eq; split; [done | lia] |].
      done.
  - (* AtStop *)
    subst cl'. race_step Hi AtKeepAlive.
    split; [done |]. split; [lia |]. split; [lia |]. split; [lia |].
    split; [done |]. split; [done |]. intros _. apply lookup_delete_eq.
  - (* AtKeepAlive *)
    cbn [pprofEnabled]. race_step Hi AtLookup.
    split; [done |]. split; [lia |]. split; [lia |]. split; [lia |]. done.
  - (* AtLookup *)
    unfold pprof_Lookup. rewrite Hprof.
    assert (is_Some (profiles st !! p)) as [m' Hm'] by (destruct Hgrp as [[_ ->]|[_ ->]]; eauto).
    rewrite Hm'. race_step Hi (AtRemove p).
    split; [done |]. split; [lia |]. split; [lia |]. split; [lia |]. done.
  - (* AtRemove *)
    subst p'. race_step Hi Done.
    split; [done |]. split; [lia |]. split; [lia |]. split; [lia |].
    split; [done |]. split; [| done].
    right. split; [lia |]. unfold Profile_Remove, set_profiles. simpl.
    destruct Hgrp as [[_ Hm]|[_ Hm]]; rewrite Hm, lookup_insert_eq; [done |].
    by rewrite delete_delete_eq.
  - (* Done *)
    race_step Hi Done.
    split; [done |]. split; [lia |]. split; [lia |]. split; [lia |]. done.
Qed.

Lemma run_sched_race_inv r h cl p m n sched : ∀ cfg,
  race_inv r h cl p m n cfg → race_inv r h cl p m n (run_sched sched cfg).
Proof.
  induction sched as [|i sched IH]; intros cfg Hinv; [done |].
  rewrite run_sched_cons. apply IH. by apply sched_step_race_inv.
Qed.

(** Every step of a call that has not ended brings it closer to its end. *)
Lemma Untrack_step_progress resource h pc s :
  (steps_left (Untrack_step resource h pc s).1.1 ≤ pred (steps_left pc))%nat.
Proof.
  destruct pc; simpl; try lia.
  - destruct resource, h; simpl; lia.
  - destruct h; simpl; [| lia]. destruct (c (load s n)); simpl; lia.
  - destruct h; simpl; [| lia]. destruct (pprof_Lookup _ s); simpl; lia.
  - destruct h; simpl; lia.
Qed.

Lemma sched_step_progress cfg i j t :
  cfg_threads cfg !! j = Some t →
  ∃ t', cfg_threads (sched_step cfg i) !! j = Some t' ∧
        (steps_left (t_pc t') ≤
         steps_left (t_pc t) - (if decide (i = j) then 1 else 0))%nat.
Proof.
  intros Hj. unfold sched_step.
  destruct (cfg_threads cfg !! i) as [ti|] eqn:Hi.
  - pose proof (Untrack_step_progress (t_resource ti) (t_h ti) (t_pc ti) (cfg_state cfg)) as Hp.
    destruct (Untrack_step (t_resource ti) (t_h ti) (t_pc ti) (cfg_state cfg))
      as [[pc s] ev]. simpl in Hp |- *.
    destruct (decide (i = j)) as [->|Hne].
    + rewrite Hj in Hi. injection Hi as ->.
      eexists. split.
      * apply list_lookup_insert_eq. by eapply lookup_lt_Some.
      * simpl. lia.
    + eexists. split; [by rewrite list_lookup_insert_ne |]. lia.
  - exists t. split; [done |].
    destruct (decide (i = j)) as [->|Hne]; [congruence | lia].
Qed.

Lemma run_sched_progress sched : ∀ cfg j t,
  cfg_threads cfg !! j = Some t →
  ∃ t', cfg_threads (run_sched sched cfg) !! j = Some t' ∧
        (steps_left (t_pc t') ≤ steps_left (t_pc t) - count_occ Nat.eq_dec sched j)%nat.
Proof.
  induction sched as [|i sched IH]; intros cfg j t Hj.
  - exists t. split; [done |]. simpl. lia.
  - rewrite run_sched_cons.
    destruct (sched_step_progress cfg i j t Hj) as (t1 & H1 & Hle1).
    destruct (IH _ j t1 H1) as (t2 & H2 & Hle2).
    exists t2. split; [done |]. simpl.
    destruct (Nat.eq_dec i j) as [->|Hne].
    + rewrite decide_True in Hle1 by done. lia.
    + rewrite decide_False in Hle1 by done. lia.
Qed.

Lemma lets_finish_turns n sched i :
  lets_finish n sched = true → i < n → (6 ≤ count_occ Nat.eq_dec sched i)%nat.
Proof.
  unfold lets_finish. rewrite forallb_forall. intros Hall Hi.
  apply Nat.leb_le. apply Hall. apply in_seq. lia.
Qed.

Lemma total_replicate f n t : total f (replicate n t) = n * f (t_pc t).
Proof. unfold total. induction n as [|n IH]; simpl; [done | rewrite IH; lia]. Qed.

Lemma total_all_done ts :
  Forall (fun t => t_pc t = Done) ts →
  total past_swap ts = length ts ∧ total at_stop ts = 0 ∧ total is_done ts = length ts.
Proof.
  unfold total. induction 1 as [|t ts Ht _ IH]; simpl; [done |].
  rewrite Ht. simpl. lia.
Qed.

(** C2: after one returning call of [Track] on a handle, let [n] calls of
    [Untrack] on it, two or more, run under any schedule that lets each
    of them finish (one after the other, or interleaved step by step).
    All of them return; exactly one swap takes the live token out and
    the other [n - 1] find it cleared; [Stop] is called exactly once;
    every call attempts the removal from the group; the group's count
    ends one below what it was; the handle is untracked and the cleanup
    is no longer registered. *)
Theorem concurrent_Untrack s0 r h stack s n sched :
  Track (Some r) (Some h) stack s0 = Returned s →
  (2 ≤ n)%nat →
  lets_finish n sched = true →
  let cfg := run_sched sched (spawn n (Some r) (Some h) s) in
  all_done cfg = true ∧
  count_ev is_win (cfg_trace cfg) = 1 ∧
  count_ev is_lose (cfg_trace cfg) = n - 1 ∧
  count_ev is_stop (cfg_trace cfg) = 1 ∧
  count_ev is_remove (cfg_trace cfg) = n ∧
  S (Profile_Count (profileName r) (cfg_state cfg)) = Profile_Count (profileName r) s ∧
  tracked (cfg_state cfg) h = false ∧
  cleanups (cfg_state cfg) !! next_cleanup s0 = None.
Proof.
  intros Ht Hn Hfin cfg.
  destruct (Track_Returned r h stack s0 s Ht) as (_ & _ & Hl & _ & Hps & _).
  set (m := <[h := added_stack stack]> (default ∅ (profiles s0 !! profileName r))) in *.
  assert (race_inv r h (next_cleanup s0) (profileName r) m n (spawn n (Some r) (Some h) s))
    as Hinit.
  { unfold race_inv, spawn. cbn [cfg_state cfg_threads cfg_trace].
    rewrite !total_replicate. unfold count_ev. simpl.
    split; [by rewrite length_replicate |].
    split; [by apply Forall_replicate |].
    split; [by rewrite Hl |].
    split; [lia |]. split; [lia |]. split; [lia |].
    split; [left; by rewrite Hl |].
    split; [left; split; [done |]; by rewrite Hps, lookup_insert_eq |].
    lia. }
  pose proof (run_sched_race_inv _ _ _ _ _ _ sched _ Hinit)
    as (Hlen & Hall & Hprof & Hswap & Hwin & Hrem & Htok & Hgrp & Hstop).
  fold cfg in Hlen, Hall, Hprof, Hswap, Hwin, Hrem, Htok, Hgrp, Hstop.
  assert (Forall (fun t => t_pc t = Done) (cfg_threads cfg)) as Hdone.
  { apply Forall_lookup_2. intros i t Hi.
    assert (i < n) as Hlt by (rewrite <- Hlen; by eapply lookup_lt_Some).
    assert (cfg_threads (spawn n (Some r) (Some h) s) !! i =
            Some (mkThread (Some r) (Some h) AtEntry)) as H0
      by (by apply lookup_replicate_2).
    destruct (run_sched_progress sched _ i _ H0) as (t' & Ht' & Hle).
    fold cfg in Ht'. rewrite Hi in Ht'. injection Ht' as <-.
    pose proof (lets_finish_turns n sched i Hfin Hlt) as Hturns.
    pose proof (Forall_lookup_1 _ _ _ _ Hall Hi) as (_ & _ & Hok).
    simpl in Hle. destruct (t_pc t); simpl in Hle, Hok; try lia; done. }
  destruct (total_all_done _ Hdone) as (Hps' & Has & Hid).
  rewrite Hps' in Hswap. rewrite Has in Hwin. rewrite Hid in Hrem. rewrite Hlen in *.
  assert (count_ev is_win (cfg_trace cfg) = 1) as Hw
    by (destruct Htok as [(_ & ? & ?)|[_ ?]]; lia).
  assert (profiles (cfg_state cfg) !! profileName r = Some (delete h m)) as Hm
    by (destruct Hgrp as [[? _]|[_ ?]]; [lia | done]).
  split.
  { unfold all_done. apply forallb_forall. intros t Hin.
    apply list_elem_of_In in Hin. rewrite Forall_forall in Hdone.
    by rewrite (Hdone t Hin). }
  split; [done |]. split; [lia |]. split; [lia |]. split; [done |].
  split.
  { unfold Profile_Count. rewrite Hm, Hps, lookup_insert_eq. fold m.
    rewrite map_size_delete_Some by (unfold m; rewrite lookup_insert_eq; eauto).
    assert (size m ≠ 0); [| lia].
    intros Hz. apply map_size_empty_iff in Hz.
    assert (m !! h = Some (added_stack stack)) as Hh by (unfold m; apply lookup_insert_eq).
    rewrite Hz, lookup_empty in Hh. done. }
  split.
  { unfold tracked. destruct Htok as [(_ & ? & ?)|[-> _]]; [lia | done]. }
  apply Hstop. lia.
Qed.

Lemma concurrent_Untrack_witness :
  Track (Some demo_resource) (Some 0) demo_stack init_state = Returned demo_s1 ∧
  (2 ≤ 2)%nat ∧
  lets_finish 2 demo_sched = true ∧
  let cfg := run_sched demo_sched (spawn 2 (Some demo_resource) (Some 0) demo_s1) in
  all_done cfg = true ∧
  count_ev is_win (cfg_trace cfg) = 1 ∧
  count_ev is_lose (cfg_trace cfg) = 2 - 1 ∧
  count_ev is_stop (cfg_trace cfg) = 1 ∧
  count_ev is_remove (cfg_trace cfg) = 2 ∧
  S (Profile_Count (profileName demo_resource) (cfg_state cfg))
    = Profile_Count (profileName demo_resource) demo_s1 ∧
  tracked (cfg_state cfg) 0 = false ∧
  cleanups (cfg_state cfg) !! next_cleanup init_state = None.
Proof.
  assert (Track (Some demo_resource) (Some 0) demo_stack init_state = Returned demo_s1)
    as H1 by (vm_compute; reflexivity).
  assert ((2 ≤ 2)%nat) as H2 by lia.
  split; [exact H1 |]. split; [exact H2 |]. split; [reflexivity |].
  exact (concurrent_Untrack init_state demo_resource 0 demo_stack demo_s1 2 demo_sched
           H1 H2 eq_refl).
Defined.

(** * Further properties of the code *)

(** ** NewHandle *)

(** X1: [NewHandle] returns an address that held no handle before; the
    handle there is the zero handle, so it is untracked; no existing
    handle, group, cleanup or failure entry is changed; and the next
    call of [NewHandle] returns another address. *)
Theorem NewHandle_fresh s :
  let a := (NewHandle s).1 in
  let s' := (NewHandle s).2 in
  heap s !! a = None ∧
  load s' a = zeroHandle ∧
  tracked s' a = false ∧
  (∀ b, load s' b = load s b) ∧
  profiles s' = profiles s ∧
  cleanups s' = cleanups s ∧
  failures s' = failures s ∧
  (NewHandle s').1 ≠ a.
Proof.
  unfold NewHandle, tracked, load, set_heap. simpl.
  pose proof (is_fresh (dom (heap s))) as Hfresh.
  apply not_elem_of_dom in Hfresh.
  split; [done |]. split; [by rewrite lookup_insert_eq |].
  split; [by rewrite lookup_insert_eq |].
  split.
  { intros b. destruct (decide (fresh (dom (heap s)) = b)) as [<-|Hne].
    - by rewrite lookup_insert_eq, Hfresh.
    - by rewrite lookup_insert_ne. }
  repeat split.
  intros Heq.
  pose proof (is_fresh (dom (<[fresh (dom (heap s)) := zeroHandle]> (heap s)))) as Hfresh2.
  apply Hfresh2. rewrite Heq. apply elem_of_dom. rewrite lookup_insert_eq. eauto.
Qed.

(** ** Track: failure and frame *)

(** X2: the panics of [Track].  A call that panics at a nil check or at
    [Profile.Add] (the handle is in the group already) has changed
    nothing.  The only other panic is that of [runtime.AddCleanup], for
    a resource that is the handle itself; it comes after the handle was
    added to the group and its fields were written, so the handle stays
    enrolled, with the count raised by one, while no cleanup is
    registered and the token is the one the handle held before.  The
    panics of [NewProfile] cannot happen. *)
Theorem Track_panic_state resource h stack s msg s' :
  Track resource h stack s = Panicked msg s' →
  (s' = s ∧
   (msg = "resource must not be nil" ∨
    msg = "handle must not be nil" ∨
    msg = "pprof: Profile.Add of duplicate value"))
  ∨
  (msg = AddCleanup_ptr_is_arg ∧
   ∃ r a, resource = Some r ∧ h = Some a ∧ r_addr r = a ∧
     member (profileName r) a s = false ∧
     member (profileName r) a s' = true ∧
     Profile_Count (profileName r) s' = S (Profile_Count (profileName r) s) ∧
     load s' a = enrolled_handle r stack (c (load s a)) ∧
     (∀ b, b ≠ a → load s' b = load s b) ∧
     cleanups s' = cleanups s ∧
     next_cleanup s' = next_cleanup s ∧
     failures s' = failures s).
Proof.
  intros Ht. destruct resource as [r|]; [| simpl in Ht; injection Ht as <- <-; auto].
  destruct h as [a|]; [| simpl in Ht; injection Ht as <- <-; auto].
  destruct (Track_outcome r a stack s)
    as [[_ Hp]|[Hm (s1 & Hother & Hps & Hf & [(_ & Hr & _)|(Heq & Hr & Hl & Hc & Hn)])]];
    [| congruence |].
  - rewrite Ht in Hp. injection Hp as <- <-. auto.
  - rewrite Ht in Hr. injection Hr as -> ->. right. split; [done |].
    exists r, a. repeat split; try done.
    + apply member_true. rewrite Hps, lookup_insert_eq.
      eexists. split; [done |]. rewrite lookup_insert_eq. eauto.
    + unfold Profile_Count. rewrite Hps, lookup_insert_eq.
      rewrite member_false in Hm.
      destruct (profiles s !! profileName r) as [m|] eqn:Hp; simpl.
      * apply map_size_insert_None. by apply Hm.
      * rewrite map_size_insert_None by apply lookup_empty. by rewrite map_size_empty.
Qed.

Lemma Track_panic_state_witness :
  Track (Some demo_self) (Some 0) demo_stack init_state =
    Panicked AddCleanup_ptr_is_arg demo_self_state ∧
  member (profileName demo_self) 0 demo_self_state = true ∧
  cleanups demo_self_state = cleanups init_state.
Proof.
  assert (Track (Some demo_self) (Some 0) demo_stack init_state =
          Panicked AddCleanup_ptr_is_arg demo_self_state) as H
    by (vm_compute; reflexivity).
  split; [exact H |].
  destruct (Track_panic_state _ _ _ _ _ _ H)
    as [[_ [Hm|[Hm|Hm]]]|(_ & r & a & Hr & Ha & _ & _ & Hmem & _ & _ & _ & Hc & _)];
    [discriminate Hm | discriminate Hm | discriminate Hm |].
  injection Hr as <-. injection Ha as <-. split; [exact Hmem | exact Hc].
Defined.

(** X3: a returning call of [Track] touches only its handle, the group
    of the resource's type and the new cleanup: every other handle,
    every other member of any group, every other group, the count of
    the group of every other type, the cleanups registered before and
    the log of failures are as they were. *)
Theorem Track_frame r h stack s s' :
  Track (Some r) (Some h) stack s = Returned s' →
  (∀ a, a ≠ h → load s' a = load s a) ∧
  (∀ p a, a ≠ h → member p a s' = member p a s) ∧
  (∀ p, p ≠ profileName r → profiles s' !! p = profiles s !! p) ∧
  (∀ r2, r_type r2 ≠ r_type r →
     Profile_Count (profileName r2) s' = Profile_Count (profileName r2) s) ∧
  (∀ id, id ≠ next_cleanup s → cleanups s' !! id = cleanups s !! id) ∧
  failures s' = failures s.
Proof.
  intros Ht.
  destruct (Track_Returned r h stack s s' Ht) as (_ & _ & _ & Hother & Hps & Hc & _ & Hf).
  assert (∀ p, p ≠ profileName r → profiles s' !! p = profiles s !! p) as Hgroups.
  { intros p Hp. rewrite Hps. by rewrite lookup_insert_ne. }
  split; [done |]. split; [| split; [done |]; split; [| split; [| done]]].
  - intros p a Ha. unfold member. rewrite Hps.
    destruct (decide (p = profileName r)) as [->|Hne]; [| by rewrite lookup_insert_ne].
    rewrite lookup_insert_eq, lookup_insert_ne by done.
    destruct (profiles s !! profileName r) as [m|]; simpl; [done |].
    rewrite lookup_empty. apply bool_decide_eq_false. by intros [? ?].
  - intros r2 Hty. unfold Profile_Count. rewrite Hgroups; [done |].
    unfold profileName, reflect_TypeOf_Elem_String. intros Heq.
    by apply String.app_inj in Heq.
  - intros id Hid. rewrite Hc. by rewrite lookup_insert_ne.
Qed.

Lemma Track_frame_witness :
  Track (Some demo_other) (Some 1) demo_stack demo_s1 = Returned demo_s2 ∧
  Profile_Count (profileName demo_resource) demo_s2
    = Profile_Count (profileName demo_resource) demo_s1.
Proof.
  assert (Track (Some demo_other) (Some 1) demo_stack demo_s1 = Returned demo_s2) as H
    by (vm_compute; reflexivity).
  split; [exact H |].
  destruct (Track_frame _ _ _ _ _ H) as (_ & _ & _ & Hcount & _).
  apply Hcount. discriminate.
Defined.

(** ** Groups are never unregistered *)

Lemma exec_keeps_group symtab o s p :
  is_Some (profiles s !! p) →
  is_Some (profiles (final_state (exec symtab o s)) !! p).
Proof.
  intros Hp. destruct o as [resource b stack|resource b|id]; cbn [exec final_state].
  - destruct (Track_final resource b stack s)
      as [->|(r & h & -> & -> & _ & _ & _ & Hps & _)]; [done |].
    rewrite Hps. destruct (decide (profileName r = p)) as [<-|Hne].
    + rewrite lookup_insert_eq. eauto.
    + by rewrite lookup_insert_ne.
  - destruct resource as [r|]; [| done]. destruct b as [h|]; [| done].
    destruct (Untrack_outcome r h s) as (_ & _ & _ & Hps & _). cbv zeta in Hps.
    rewrite Hps. destruct (profiles s !! profile (load s h)) as [m|]; [| done].
    destruct (decide (profile (load s h) = p)) as [<-|Hne].
    + rewrite lookup_insert_eq. eauto.
    + by rewrite lookup_insert_ne.
  - destruct (runCleanup_frame symtab id s) as (_ & Hps & _). cbv zeta in Hps.
    by rewrite Hps.
Qed.

(** X4: a registry group, once created, stays registered whatever the
    process and the collector do: no call unregisters it, not even the
    [Untrack] that removes its last member. *)
Theorem groups_persist symtab ops s p :
  is_Some (profiles s !! p) →
  is_Some (profiles (final_state (run symtab ops s)) !! p).
Proof.
  apply (run_invariant_all symtab (fun s => is_Some (profiles s !! p))).
  intros o s'. apply exec_keeps_group.
Qed.

Lemma groups_persist_witness :
  is_Some (profiles demo_trace_state !! profileName demo_resource) ∧
  is_Some (profiles
             (final_state (run demo_symtab [OpUntrack (Some demo_resource) (Some 1)]
                             demo_trace_state))
             !! profileName demo_resource) ∧
  Profile_Count (profileName demo_resource)
    (final_state (run demo_symtab [OpUntrack (Some demo_resource) (Some 1)]
                    demo_trace_state)) = 0.
Proof.
  assert (is_Some (profiles demo_trace_state !! profileName demo_resource)) as H
    by (vm_compute; eauto).
  split; [exact H |]. split; [| vm_compute; reflexivity].
  exact (groups_persist demo_symtab [OpUntrack (Some demo_resource) (Some 1)]
           demo_trace_state (profileName demo_resource) H).
Defined.

(** ** Untrack: when it returns, and calling it again *)

(** In an execution every handle names no group or a registered one. *)
Lemma exec_group_registered symtab o s :
  (∀ a, profile (load s a) = "" ∨ is_Some (profiles s !! profile (load s a))) →
  ∀ a, profile (load (final_state (exec symtab o s)) a) = "" ∨
       is_Some (profiles (final_state (exec symtab o s))
                  !! profile (load (final_state (exec symtab o s)) a)).
Proof.
  intros Hreg a.
  assert (∀ q, is_Some (profiles s !! q) →
               is_Some (profiles (final_state (exec symtab o s)) !! q)) as Hkeep
    by (intros q; apply exec_keeps_group).
  destruct o as [resource b stack|resource b|id]; cbn [exec final_state] in *.
  - destruct (Track_final resource b stack s)
      as [->|(r & h & -> & -> & _ & Hl & Hother & Hps & _)]; [done |].
    destruct (decide (a = h)) as [->|Hne].
    + right. rewrite Hl, Hps. rewrite lookup_insert_eq. eauto.
    + rewrite Hother by done. destruct (Hreg a) as [He|Hs]; [by left | right; by apply Hkeep].
  - destruct (Untrack_fields resource b s) as (Hfields & _). cbv zeta in Hfields.
    destruct (Hfields a) as (_ & -> & _).
    destruct (Hreg a) as [He|Hs]; [by left | right; by apply Hkeep].
  - destruct (runCleanup_frame symtab id s) as (Hh & _). cbv zeta in Hh.
    unfold load in *. rewrite Hh.
    destruct (Hreg a) as [He|Hs]; [by left | right; by apply Hkeep].
Qed.

Lemma run_group_registered symtab ops a :
  let s := final_state (run symtab ops init_state) in
  profile (load s a) = "" ∨ is_Some (profiles s !! profile (load s a)).
Proof.
  revert a.
  apply (run_invariant_all symtab
           (fun s => ∀ a, profile (load s a) = "" ∨ is_Some (profiles s !! profile (load s a)))).
  - intros o s. apply exec_group_registered.
  - intros a. by left.
Qed.

(** A handle on which [Track] has returned names a group from then on. *)
Lemma exec_keeps_profile symtab o s s' h :
  exec symtab o s = Returned s' →
  profile (load s h) ≠ "" ∨ not_track h o = false →
  profile (load s' h) ≠ "".
Proof.
  intros He Hor. destruct o as [resource b stack|resource b|id]; cbn [exec] in He.
  - destruct resource as [r|]; [| done]. destruct b as [a|]; [| done].
    destruct (Track_Returned r a stack s s' He) as (_ & _ & Hl & Hother & _).
    destruct (decide (h = a)) as [->|Hne].
    + rewrite Hl. simpl. apply profileName_not_empty.
    + rewrite Hother by done. destruct Hor as [Hp|Hn]; [done |].
      simpl in Hn. apply negb_false_iff, Nat.eqb_eq in Hn. congruence.
  - destruct (Untrack_fields resource b s) as (Hfields & _). cbv zeta in Hfields.
    rewrite He in Hfields. simpl in Hfields. destruct (Hfields h) as (_ & -> & _).
    destruct Hor as [Hp|Hn]; [done | by destruct b].
  - injection He as <-. destruct (runCleanup_frame symtab id s) as (Hh & _).
    cbv zeta in Hh. unfold load in *. rewrite Hh.
    destruct Hor as [Hp|Hn]; done.
Qed.

Lemma run_keeps_profile symtab h ops : ∀ s s',
  run symtab ops s = Returned s' →
  profile (load s h) ≠ "" ∨ never_tracked h ops = false →
  profile (load s' h) ≠ "".
Proof.
  induction ops as [|o ops IH]; intros s s' Hrun Hor.
  - simpl in Hrun. injection Hrun as <-. destruct Hor as [Hp|Hn]; done.
  - simpl in Hrun. destruct (exec symtab o s) as [s1|msg s1] eqn:He; [| done].
    simpl in Hrun. apply (IH s1 s' Hrun).
    destruct Hor as [Hp|Hn].
    + left. eapply exec_keeps_profile; eauto.
    + unfold never_tracked in Hn. simpl in Hn. apply andb_false_iff in Hn as [Hn|Hn].
      * left. eapply exec_keeps_profile; eauto.
      * by right.
Qed.

(** X5: in an execution without panic, [Untrack] on non-nil arguments
    returns exactly when [Track] was called on the handle before (tracked
    now or not); on a handle never passed to [Track] it panics. *)
Theorem Untrack_returns_iff_tracked_before symtab pre s r h :
  run symtab pre init_state = Returned s →
  returned (Untrack (Some r) (Some h) s) = true ↔ never_tracked h pre = false.
Proof.
  intros Hrun.
  pose proof (run_wf symtab pre init_state wf_init) as (Hempty & _).
  pose proof (run_group_registered symtab pre h) as Hreg.
  rewrite Hrun in Hempty, Hreg. simpl in Hempty, Hreg.
  destruct (Untrack_outcome r h s) as (Hout & _). cbv zeta in Hout. rewrite Hout.
  split.
  - intros Hret. destruct (never_tracked h pre) eqn:Hn; [| done].
    pose proof (never_tracked_zero symtab pre h Hn) as Hz.
    rewrite Hrun in Hz. simpl in Hz. rewrite Hz in Hret. simpl in Hret.
    by rewrite Hempty in Hret.
  - intros Hn.
    assert (profile (load s h) ≠ "") as Hne
      by (eapply run_keeps_profile; [exact Hrun | by right]).
    destruct Hreg as [He|[m Hm]]; [done |]. by rewrite Hm.
Qed.

Lemma Untrack_returns_iff_tracked_before_witness :
  run demo_symtab demo_trace init_state = Returned demo_trace_state ∧
  returned (Untrack (Some demo_resource) (Some 0) demo_trace_state) = true.
Proof.
  assert (run demo_symtab demo_trace init_state = Returned demo_trace_state) as H
    by (vm_compute; reflexivity).
  split; [exact H |].
  apply (Untrack_returns_iff_tracked_before demo_symtab demo_trace demo_trace_state
           demo_resource 0 H).
  reflexivity.
Defined.

(** X6: [Untrack] is idempotent: after a call that returned, another
    call on the same handle, with any non-nil resource, returns and
    leaves the whole state exactly as it is. *)
Theorem Untrack_idempotent r r' h s s' :
  Untrack (Some r) (Some h) s = Returned s' →
  Untrack (Some r') (Some h) s' = Returned s'.
Proof.
  intros Hu.
  destruct (Untrack_outcome r h s) as (Hout & Hh & _ & Hps & _). cbv zeta in *.
  rewrite Hu in Hout, Hh, Hps. simpl in Hh, Hps.
  destruct (profiles s !! profile (load s h)) as [m|] eqn:Hm; [| done].
  assert (heap s' !! h = Some (set_c None (load s h))) as Hheap.
  { revert Hu. unfold Untrack, pprof_Lookup, Profile_Remove, Cleanup_Stop, store,
      set_heap, set_profiles, load.
    destruct (c (default zeroHandle (heap s !! h))); simpl;
      rewrite ?lookup_insert_eq; simpl;
      destruct (profiles s !! _); intros [= <-]; simpl; by rewrite lookup_insert_eq. }
  unfold Untrack, pprof_Lookup, Profile_Remove, Cleanup_Stop, store, set_heap,
    set_profiles, load.
  rewrite Hheap. simpl. rewrite lookup_insert_eq. simpl.
  unfold load in Hps. rewrite Hps. rewrite !lookup_insert_eq.
  f_equal. destruct s' as [hp ps cs nx fs]. simpl in *. f_equal.
  - apply insert_id. done.
  - rewrite Hps. rewrite insert_insert_eq. by rewrite delete_delete_eq.
Qed.

Lemma Untrack_idempotent_witness :
  Untrack (Some demo_resource) (Some 0) demo_s1
    = Returned (final_state (Untrack (Some demo_resource) (Some 0) demo_s1)) ∧
  Untrack (Some demo_other) (Some 0) (final_state (Untrack (Some demo_resource) (Some 0) demo_s1))
    = Returned (final_state (Untrack (Some demo_resource) (Some 0) demo_s1)).
Proof.
  assert (Untrack (Some demo_resource) (Some 0) demo_s1
          = Returned (final_state (Untrack (Some demo_resource) (Some 0) demo_s1))) as H
    by (vm_compute; reflexivity).
  split; [exact H |].
  exact (Untrack_idempotent demo_resource demo_other 0 demo_s1 _ H).
Defined.

(** ** Track and Untrack together *)

(** X7: in an execution, [Track] followed by [Untrack] on the same pair
    restores the registry and the runtime: [Untrack] returns, every
    membership and every group count are as before [Track], the
    registered cleanups and the failure log are as before; the handle
    is untracked but keeps the type name, group key and stack that
    [Track] stored; only the cleanup numbering has moved on. *)
Theorem Track_Untrack_round_trip symtab pre s r h stack s1 :
  run symtab pre init_state = Returned s →
  Track (Some r) (Some h) stack s = Returned s1 →
  ∃ s2, Untrack (Some r) (Some h) s1 = Returned s2 ∧
    (∀ p a, member p a s2 = member p a s) ∧
    (∀ p, Profile_Count p s2 = Profile_Count p s) ∧
    cleanups s2 = cleanups s ∧
    failures s2 = failures s ∧
    load s2 h = set_c None (tracked_handle r stack (next_cleanup s)) ∧
    (∀ a, a ≠ h → load s2 a = load s a) ∧
    next_cleanup s2 = S (next_cleanup s).
Proof.
  intros Hrun Ht.
  pose proof (run_wf symtab pre init_state wf_init) as (_ & Hcl & _).
  rewrite Hrun in Hcl. simpl in Hcl.
  destruct (Track_Returned r h stack s s1 Ht)
    as (Hmem & _ & Hl & Hother & Hps & Hc & Hn & Hf).
  destruct (Untrack_outcome r h s1) as (Hout & Hh2 & Hother2 & Hps2 & Hc2 & Hn2 & Hf2).
  cbv zeta in *.
  set (s2 := final_state (Untrack (Some r) (Some h) s1)) in *.
  rewrite Hl in Hout, Hps2, Hc2, Hh2.
  cbn [profile c tracked_handle] in Hout, Hps2, Hc2.
  rewrite Hps, lookup_insert_eq in Hout, Hps2.
  exists s2. split; [exact Hout |].
  assert (default ∅ (profiles s !! profileName r) !! h = None) as Hfree.
  { rewrite member_false in Hmem.
    destruct (profiles s !! profileName r) as [m|] eqn:Hm; simpl; [by apply Hmem | done]. }
  assert (profiles s2 = <[profileName r := default ∅ (profiles s !! profileName r)]> (profiles s))
    as Hps3.
  { rewrite Hps2. rewrite insert_insert_eq. by rewrite delete_insert_eq, delete_id. }
  assert (∀ p a, member p a s2 = member p a s) as Hmember.
  { intros p a. unfold member. rewrite Hps3.
    destruct (decide (p = profileName r)) as [->|Hne]; [| by rewrite lookup_insert_ne].
    rewrite lookup_insert_eq.
    destruct (profiles s !! profileName r) as [m|]; simpl; [done |].
    rewrite lookup_empty. apply bool_decide_eq_false. by intros [? ?]. }
  split; [done |]. split.
  { intros p. unfold Profile_Count. rewrite Hps3.
    destruct (decide (p = profileName r)) as [->|Hne]; [| by rewrite lookup_insert_ne].
    rewrite lookup_insert_eq.
    destruct (profiles s !! profileName r) as [m|]; simpl; [done | apply map_size_empty]. }
  split.
  { rewrite Hc2, Hc. rewrite delete_insert_eq. apply delete_id.
    destruct (cleanups s !! next_cleanup s) eqn:Hx; [| done].
    assert (next_cleanup s < next_cleanup s) by (apply Hcl; eauto). lia. }
  split; [by rewrite Hf2 |]. split; [done |]. split.
  { intros a Ha. rewrite Hother2 by done. by apply Hother. }
  by rewrite Hn2.
Qed.

Lemma Track_Untrack_round_trip_witness :
  run demo_symtab demo_pre init_state = Returned demo_pre_state ∧
  Track (Some demo_other) (Some 0) demo_stack demo_pre_state
    = Returned (final_state (Track (Some demo_other) (Some 0) demo_stack demo_pre_state)) ∧
  ∃ s2, Untrack (Some demo_other) (Some 0)
          (final_state (Track (Some demo_other) (Some 0) demo_stack demo_pre_state))
        = Returned s2 ∧
        cleanups s2 = cleanups demo_pre_state.
Proof.
  assert (run demo_symtab demo_pre init_state = Returned demo_pre_state) as H1
    by (vm_compute; reflexivity).
  assert (Track (Some demo_other) (Some 0) demo_stack demo_pre_state
          = Returned (final_state (Track (Some demo_other) (Some 0) demo_stack demo_pre_state)))
    as H2 by (vm_compute; reflexivity).
  split; [exact H1 |]. split; [exact H2 |].
  destruct (Track_Untrack_round_trip demo_symtab demo_pre demo_pre_state demo_other 0
              demo_stack _ H1 H2) as (s2 & Hu & _ & _ & Hc & _).
  exists s2. split; [exact Hu | exact Hc].
Defined.

(** X8: a handle can be tracked again after [Untrack]: when [Track] and
    then [Untrack] have returned on a pair, a further [Track] on the same
    pair returns, with a new cleanup, and the group's count is one above
    what it was before the first [Track]. *)
Theorem Track_again_after_Untrack r h stack stack' s s1 s2 :
  Track (Some r) (Some h) stack s = Returned s1 →
  Untrack (Some r) (Some h) s1 = Returned s2 →
  ∃ s3, Track (Some r) (Some h) stack' s2 = Returned s3 ∧
        c (load s3 h) = Some (S (next_cleanup s)) ∧
        Profile_Count (profileName r) s3 = S (Profile_Count (profileName r) s).
Proof.
  intros Ht Hu.
  destruct (Track_Returned r h stack s s1 Ht)
    as (Hmem & Hne & Hl & _ & Hps & _ & Hn & _).
  destruct (Untrack_outcome r h s1) as (_ & _ & _ & Hps2 & _ & Hn2 & _).
  cbv zeta in *. rewrite Hu in Hps2, Hn2. simpl in Hps2, Hn2.
  rewrite Hl in Hps2. simpl in Hps2. rewrite Hps, lookup_insert_eq in Hps2.
  assert (default ∅ (profiles s !! profileName r) !! h = None) as Hfree.
  { rewrite member_false in Hmem.
    destruct (profiles s !! profileName r) as [m|] eqn:Hm; simpl; [by apply Hmem | done]. }
  assert (profiles s2 !! profileName r = Some (default ∅ (profiles s !! profileName r)))
    as Hgrp.
  { rewrite Hps2, lookup_insert_eq. by rewrite delete_insert_eq, delete_id. }
  destruct (Track_outcome r h stack' s2)
    as [[Hmem2 _]|[_ (s3 & _ & Hps3 & _ & [(_ & Hr3 & Hl3 & _)|(Heq & _)])]];
    [| | done].
  { apply member_true in Hmem2 as (m & Hm & Hin). rewrite Hgrp in Hm.
    injection Hm as <-. rewrite Hfree in Hin. by destruct Hin. }
  exists s3. split; [done |]. split.
  - rewrite Hl3. simpl. by rewrite Hn2, Hn.
  - unfold Profile_Count. rewrite Hps3, lookup_insert_eq, Hgrp. simpl.
    rewrite map_size_insert_None by done.
    by destruct (profiles s !! profileName r).
Qed.

Lemma Track_again_after_Untrack_witness :
  Track (Some demo_resource) (Some 0) demo_stack init_state = Returned demo_s1 ∧
  Untrack (Some demo_resource) (Some 0) demo_s1
    = Returned (final_state (Untrack (Some demo_resource) (Some 0) demo_s1)) ∧
  ∃ s3, Track (Some demo_resource) (Some 0) demo_stack
          (final_state (Untrack (Some demo_resource) (Some 0) demo_s1)) = Returned s3 ∧
        c (load s3 0) = Some 1.
Proof.
  assert (Track (Some demo_resource) (Some 0) demo_stack init_state = Returned demo_s1)
    as H1 by (vm_compute; reflexivity).
  assert (Untrack (Some demo_resource) (Some 0) demo_s1
          = Returned (final_state (Untrack (Some demo_resource) (Some 0) demo_s1)))
    as H2 by (vm_compute; reflexivity).
  split; [exact H1 |]. split; [exact H2 |].
  destruct (Track_again_after_Untrack demo_resource 0 demo_stack demo_stack init_state
              demo_s1 _ H1 H2) as (s3 & Ht & Hc & _).
  exists s3. split; [exact Ht | exact Hc].
Defined.

(** ** The collector and the failure behaviour *)

(** X10: the leak report.  When the collector runs the cleanup that a
    returning [Track] has just registered, the failure behaviour is
    invoked once, for that handle, with the message built from what
    [Track] stored: the name of the pointer type, the fixed sentence,
    the heading, and the frames of the callers of [Track].  The handle
    stays a member of its group and the count stays as it is; running
    the same cleanup again does nothing. *)
Theorem leak_is_reported_once symtab r h stack s s1 :
  Track (Some r) (Some h) stack s = Returned s1 →
  let cl := next_cleanup s in
  let s2 := runtime_runCleanup symtab cl s1 in
  failures s2 =
    (failures s ++
     [mkFailure cl h
        (("*" +:+ r_type r) +:+ " became unreachable without being released!" +:+ nl +:+
         "It started being tracked at:" +:+ nl +:+
         match runtime_CallersFrames symtab (firstn 32 (skipn 2 stack)) with
         | [] => frame_text zeroFrame
         | frames => String.concat "" (map frame_text frames)
         end)])%list ∧
  member (profileName r) h s2 = true ∧
  Profile_Count (profileName r) s2 = Profile_Count (profileName r) s1 ∧
  runtime_runCleanup symtab cl s2 = s2.
Proof.
  intros Ht cl s2.
  destruct (Track_Returned r h stack s s1 Ht) as (_ & _ & Hl & _ & Hps & Hc & _ & Hf).
  assert (cleanups s1 !! cl = Some (r_addr r, h)) as Hreg
    by (rewrite Hc; apply lookup_insert_eq).
  unfold s2, runtime_runCleanup, cleanup. rewrite Hreg. simpl.
  rewrite lookup_delete_eq.
  split; [| split; [| done]].
  - rewrite Hf. do 2 f_equal.
    change (load _ h) with (load s1 h). rewrite Hl.
    rewrite buildPanicMsg_text. simpl. unfold reflect_TypeOf_String, runtime_Callers.
    by rewrite !append_assoc'.
  - apply member_true. cbn [profiles]. rewrite Hps, lookup_insert_eq.
    eexists. split; [done |]. rewrite lookup_insert_eq. eauto.
Qed.

Lemma leak_is_reported_once_witness :
  Track (Some demo_resource) (Some 0) demo_stack init_state = Returned demo_s1 ∧
  member (profileName demo_resource) 0
    (runtime_runCleanup demo_symtab (next_cleanup init_state) demo_s1) = true.
Proof.
  assert (Track (Some demo_resource) (Some 0) demo_stack init_state = Returned demo_s1)
    as H by (vm_compute; reflexivity).
  split; [exact H |].
  exact (proj1 (proj2 (leak_is_reported_once demo_symtab demo_resource 0 demo_stack
                         init_state demo_s1 H))).
Defined.

(** X11: after the leak report the handle is still enrolled: until
    [Untrack] is called, [Track] on the same pair panics on the
    duplicate; [Untrack] returns, takes the handle out of its group,
    lowering the count by one, and leaves the failure log as it is. *)
Theorem Untrack_after_leak symtab r h stack stack' s s1 :
  Track (Some r) (Some h) stack s = Returned s1 →
  let s2 := runtime_runCleanup symtab (next_cleanup s) s1 in
  returned (Track (Some r) (Some h) stack' s2) = false ∧
  ∃ s3, Untrack (Some r) (Some h) s2 = Returned s3 ∧
        member (profileName r) h s3 = false ∧
        S (Profile_Count (profileName r) s3) = Profile_Count (profileName r) s2 ∧
        failures s3 = failures s2.
Proof.
  intros Ht s2.
  destruct (Track_Returned r h stack s s1 Ht) as (_ & _ & Hl & _ & Hps & _).
  destruct (runCleanup_frame symtab (next_cleanup s) s1) as (Hh & Hps2 & _).
  cbv zeta in Hh, Hps2. fold s2 in Hh, Hps2.
  assert (load s2 h = load s1 h) as Hl2 by (unfold load; by rewrite Hh).
  assert (member (profileName r) h s2 = true) as Hmem.
  { apply member_true. rewrite Hps2, Hps, lookup_insert_eq.
    eexists. split; [done |]. rewrite lookup_insert_eq. eauto. }
  split.
  { destruct (Track_outcome r h stack' s2) as [[_ ->]|[Hno _]]; [done | congruence]. }
  assert (profile (load s2 h) = profileName r) as Hprof by (by rewrite Hl2, Hl).
  rewrite <- Hprof in Hmem.
  destruct (Untrack_count r h s2 Hmem) as (s3 & Hu & Hcount).
  exists s3. rewrite Hprof in Hcount. split; [done |]. split; [| split; [done |]].
  - destruct (member (profileName r) h s3) eqn:Hm3; [| done].
    apply (Untrack_member r h s2 s3 _ h Hu) in Hm3 as [_ Hnot].
    exfalso. apply Hnot. by rewrite Hprof.
  - destruct (Untrack_outcome r h s2) as (_ & _ & _ & _ & _ & _ & Hf). cbv zeta in Hf.
    by rewrite Hu in Hf.
Qed.

Lemma Untrack_after_leak_witness :
  Track (Some demo_resource) (Some 0) demo_stack init_state = Returned demo_s1 ∧
  returned (Track (Some demo_resource) (Some 0) demo_stack
              (runtime_runCleanup demo_symtab (next_cleanup init_state) demo_s1)) = false.
Proof.
  assert (Track (Some demo_resource) (Some 0) demo_stack init_state = Returned demo_s1)
    as H by (vm_compute; reflexivity).
  split; [exact H |].
  exact (proj1 (Untrack_after_leak demo_symtab demo_resource 0 demo_stack demo_stack
                  init_state demo_s1 H)).
Defined.

(** ** Track, step by step *)

(** The steps of one call running alone are the call: twelve steps end
    where [Track] ends, with the mutex released. *)
Lemma Track_steps_refine resource h stack s :
  Track_steps 12 resource h stack TEntry None s =
  (match Track resource h stack s with
   | Returned _ => TDone
   | Panicked msg _ => TCrashed msg
   end, None, final_state (Track resource h stack s)).
Proof.
  destruct resource as [r|]; [| reflexivity].
  destruct h as [a|]; [| reflexivity].
  unfold Track, lookup_or_create.
  cbn [Track_steps Track_step pprofEnabled collectStack].
  unfold pprof_Lookup.
  destruct (profiles s !! profileName r) as [m|] eqn:Hp.
  - cbn [Track_steps Track_step andThen]. unfold Profile_Add. rewrite Hp.
    destruct (m !! a); [reflexivity |].
    cbn [Track_steps Track_step andThen]. unfold runtime_AddCleanup.
    destruct (decide (r_addr r = a)); reflexivity.
  - cbn [Track_steps Track_step andThen]. unfold pprof_Lookup. rewrite Hp.
    cbn [Track_steps Track_step]. unfold pprof_NewProfile.
    destruct (decide (profileName r = "")) as [He|_]; [by apply profileName_not_empty in He |].
    rewrite Hp. cbn [Track_steps Track_step andThen].
    unfold Profile_Add, set_profiles. cbn [profiles]. rewrite lookup_insert_eq, lookup_empty.
    cbn [Track_steps Track_step andThen]. unfold runtime_AddCleanup.
    destruct (decide (r_addr r = a)); reflexivity.
Qed.

Lemma sum_list_with_insert {A} (f : A → nat) (l : list A) i x y :
  l !! i = Some x →
  sum_list_with f (<[i := y]> l) + f x = sum_list_with f l + f y.
Proof.
  revert i. induction l as [|z l IH]; intros i Hi; [done |].
  destruct i as [|i]; simpl in *.
  - injection Hi as ->. lia.
  - specialize (IH i Hi). lia.
Qed.

Lemma calls_distinct_handles (calls : list Call) i j c c' :
  NoDup (call_h <$> calls) →
  calls !! i = Some c → calls !! j = Some c' → i ≠ j → call_h c ≠ call_h c'.
Proof.
  intros Hnd Hi Hj Hne Heq. apply Hne.
  eapply (NoDup_lookup (call_h <$> calls) i j (call_h c)); [done | |].
  - by rewrite list_lookup_fmap, Hi.
  - by rewrite list_lookup_fmap, Hj, Heq.
Qed.

Lemma threads_lookup (calls : list Call) (ts : list TrackThread) i t :
  Forall2 (fun t c => ∃ pc, t = thread_of c pc) ts calls →
  ts !! i = Some t →
  ∃ c pc, calls !! i = Some c ∧ t = thread_of c pc.
Proof.
  intros Hall Hi.
  destruct (Forall2_lookup_l _ _ _ _ _ Hall Hi) as (c & Hc & pc & ->). eauto.
Qed.

Lemma member_new_group prof p b st st' :
  profiles st !! prof = None →
  profiles st' = <[prof := ∅]> (profiles st) →
  member p b st' = member p b st.
Proof.
  intros Hnone Hps. unfold member. rewrite Hps.
  destruct (decide (prof = p)) as [<-|Hne]; [| by rewrite lookup_insert_ne].
  rewrite lookup_insert_eq, Hnone, lookup_empty.
  apply bool_decide_eq_false. by intros [? ?].
Qed.

Lemma member_added prof a stk m p b st st' :
  profiles st !! prof = Some m →
  profiles st' = <[prof := <[a := stk]> m]> (profiles st) →
  member p b st' = true ↔ (p = prof ∧ b = a) ∨ member p b st = true.
Proof.
  intros Hm Hps. rewrite !member_true, Hps.
  destruct (decide (prof = p)) as [<-|Hne].
  - rewrite lookup_insert_eq, Hm. split.
    + intros (m' & [= <-] & Hin). destruct (decide (a = b)) as [->|Hab]; [by left | right].
      rewrite lookup_insert_ne in Hin by done. eauto.
    + intros [[_ ->]|(m' & [= <-] & Hin)].
      * eexists. split; [done |]. rewrite lookup_insert_eq. eauto.
      * eexists. split; [done |].
        destruct (decide (a = b)) as [->|Hab]; [rewrite lookup_insert_eq; eauto |].
        by rewrite lookup_insert_ne.
  - rewrite lookup_insert_ne by done. split; [by right |].
    intros [[? _]|H]; [congruence | exact H].
Qed.

Lemma count_new_group prof p st st' :
  profiles st !! prof = None →
  profiles st' = <[prof := ∅]> (profiles st) →
  Profile_Count p st' = Profile_Count p st.
Proof.
  intros Hnone Hps. unfold Profile_Count. rewrite Hps.
  destruct (decide (prof = p)) as [<-|Hne]; [| by rewrite lookup_insert_ne].
  rewrite lookup_insert_eq, Hnone. apply map_size_empty.
Qed.

Lemma count_added prof a stk m p st st' :
  profiles st !! prof = Some m →
  m !! a = None →
  profiles st' = <[prof := <[a := stk]> m]> (profiles st) →
  Profile_Count p st' = Profile_Count p st + (if decide (prof = p) then 1 else 0).
Proof.
  intros Hm Ha Hps. unfold Profile_Count. rewrite Hps.
  destruct (decide (prof = p)) as [<-|Hne].
  - rewrite lookup_insert_eq, Hm. rewrite map_size_insert_None by done. lia.
  - rewrite lookup_insert_ne by done. lia.
Qed.

(** The invariant survives a step of goroutine [i] that moves it from
    [pc] to [pc'], given what the step did to the mutex, the profiles
    and the handle of its call. *)
Lemma track_inv_update calls s0 st mu ts i c pc st' mu' pc' :
  NoDup (call_h <$> calls) →
  track_inv calls s0 (mkTrackConfig st mu ts) →
  ts !! i = Some (thread_of c pc) →
  (∀ msg, pc' ≠ TCrashed msg) →
  (holds_lock pc' = true ↔ mu' = Some i) →
  (mu' = mu ∨ (mu = None ∧ mu' = Some i) ∨ (mu = Some i ∧ mu' = None)) →
  profiles_step (profileName (call_resource c)) (call_h c) pc pc' st st' →
  (pc' = TNew → profiles st' !! profileName (call_resource c) = None) →
  (pc' = TUnlock ∨ pc' = TAdd →
   is_Some (profiles st' !! profileName (call_resource c))) →
  (∀ b, b ≠ call_h c → load st' b = load st b) →
  (past_setprofile pc' = true →
   profile (load st' (call_h c)) = profileName (call_resource c)) →
  (pc' = TDone → tracked st' (call_h c) = true) →
  track_inv calls s0 (mkTrackConfig st' mu' (<[i := thread_of c pc']> ts)).
Proof.
  intros Hnd (Hall & Hcrash & Hmu & Hmu2 & Hgrp & Hmem1 & Hmem2 & Hcount & Hheap)
    Hi Hnc Hhold Hmus Hps Hnew Hunl Hframe Hprof Hdone.
  cbn [tc_state tc_threads tc_mutex] in *.
  assert (calls !! i = Some c) as Hci.
  { destruct (threads_lookup calls ts i _ Hall Hi) as (c' & pc0 & Hc' & Heq).
    unfold thread_of in Heq. injection Heq as H1 H2 H3 _.
    destruct c, c'; simpl in *; by subst. }
  assert (i < length ts) as Hlt by (by eapply lookup_lt_Some).
  (* a goroutine other than [i] is as before, with another handle *)
  assert (∀ j t, (<[i := thread_of c pc']> ts) !! j = Some t →
            (j = i ∧ t = thread_of c pc') ∨
            (j ≠ i ∧ ts !! j = Some t ∧
             ∀ r a, tt_resource t = Some r → tt_h t = Some a → a ≠ call_h c)) as Hsplit.
  { intros j t Hj. destruct (decide (j = i)) as [->|Hne].
    - rewrite list_lookup_insert_eq in Hj by done. injection Hj as <-. by left.
    - rewrite list_lookup_insert_ne in Hj by done. right. split; [done |]. split; [done |].
      intros r a Hr Ha.
      destruct (threads_lookup calls ts j _ Hall Hj) as (c' & pc0 & Hc' & ->).
      simpl in Ha. injection Ha as <-.
      eapply calls_distinct_handles; eauto. }
  (* memberships are kept *)
  assert (∀ p b, member p b st = true → member p b st' = true) as Hkeep.
  { intros p b Hm. destruct Hps as [[Hsame _]|[(_ & _ & Hnone & Hnew')|(_ & _ & m & stk & Hm' & _ & Hadd)]].
    - unfold member in *. by rewrite Hsame.
    - by rewrite (member_new_group _ p b st st' Hnone Hnew').
    - apply (member_added _ _ _ _ p b st st' Hm' Hadd). by right. }
  assert (∀ p, is_Some (profiles st !! p) → is_Some (profiles st' !! p)) as Hkeepg.
  { intros p Hp. destruct Hps as [[Hsame _]|[(_ & _ & _ & ->)|(_ & _ & m & stk & _ & _ & ->)]].
    - by rewrite Hsame.
    - destruct (decide (profileName (call_resource c) = p)) as [<-|Hne];
        [rewrite lookup_insert_eq; eauto | by rewrite lookup_insert_ne].
    - destruct (decide (profileName (call_resource c) = p)) as [<-|Hne];
        [rewrite lookup_insert_eq; eauto | by rewrite lookup_insert_ne]. }
  unfold track_inv. cbn [tc_state tc_threads tc_mutex].
  split; [| split; [| split; [| split; [| split; [| split; [| split; [| split]]]]]]].
  - (* the goroutines are the calls *)
    rewrite <- (list_insert_id calls i c Hci). apply Forall2_insert; [done | by eexists].
  - (* nobody panicked *)
    intros j t msg Hj. destruct (Hsplit j t Hj) as [[-> ->]|(Hne & Hj' & _)].
    + apply Hnc.
    + by eapply Hcrash.
  - (* the mutex *)
    intros j t Hj. destruct (Hsplit j t Hj) as [[-> ->]|(Hne & Hj' & _)]; [done |].
    specialize (Hmu j t Hj').
    destruct Hmus as [->|[[-> ->]|[-> ->]]]; [done | |].
    + split; [intros Hh; apply Hmu in Hh; done | intros [= ->]; done].
    + split; [intros Hh; apply Hmu in Hh; congruence | done].
  - intros k Hk. apply lookup_lt_is_Some_2. rewrite length_insert.
    destruct Hmus as [->|[[-> ->]|[-> ->]]]; [by apply lookup_lt_is_Some_1, Hmu2 | | done].
    by injection Hk as <-.
  - (* creating and finding the group *)
    intros j t r Hj Hr. destruct (Hsplit j t Hj) as [[-> ->]|(Hne & Hj' & _)].
    + simpl in Hr. injection Hr as <-. simpl. split; [done | done].
    + destruct (Hgrp j t r Hj' Hr) as [Hg1 Hg2]. split.
      * intros Hpc. specialize (Hg1 Hpc).
        destruct Hps as [[-> _]|[(-> & _ & _ & _)|(_ & _ & m & stk & Hm' & _ & ->)]]; [done | |].
        -- (* two goroutines at NewProfile would both hold the mutex *)
           exfalso. apply Hne.
           assert (mu = Some j) as Hj1 by (apply (Hmu j t Hj'); by rewrite Hpc).
           assert (mu = Some i) as Hj2 by (by apply (Hmu i _ Hi)).
           congruence.
        -- rewrite lookup_insert_ne; [done |]. intros Heq. rewrite Heq in Hm'. congruence.
      * intros Hpc. apply Hkeepg. by apply Hg2.
  - (* members are old members or added handles *)
    intros p b Hm.
    assert (member p b st = true ∨
            (p = profileName (call_resource c) ∧ b = call_h c ∧ past_add pc' = true))
      as [Hold|(-> & -> & Hpa)].
    { destruct Hps as [[Hsame _]|[(_ & _ & Hnone & Hnew')|(_ & -> & m & stk & Hm' & _ & Hadd)]].
      - left. unfold member in *. by rewrite <- Hsame.
      - left. by rewrite <- (member_new_group _ p b st st' Hnone Hnew').
      - apply (member_added _ _ _ _ p b st st' Hm' Hadd) in Hm as [[-> ->]|Hm]; auto. }
    + destruct (Hmem1 p b Hold) as [H0|(j & t & r & Hj & Hr & Ha & Hp & Hpa)]; [by left |].
      right. destruct (decide (j = i)) as [->|Hne].
      * rewrite Hi in Hj. injection Hj as <-. simpl in Hr, Ha, Hpa.
        exists i, (thread_of c pc'), r. rewrite list_lookup_insert_eq by done.
        repeat split; try done. simpl.
        destruct Hps as [[_ ->]|[(-> & _)|(-> & _)]]; done.
      * exists j, t, r. rewrite list_lookup_insert_ne by done. done.
    + right. exists i, (thread_of c pc'), (call_resource c).
      rewrite list_lookup_insert_eq by done. done.
  - (* added handles are members *)
    intros j t r a Hj Hr Ha Hpa. destruct (Hsplit j t Hj) as [[-> ->]|(Hne & Hj' & _)].
    + simpl in Hr, Ha, Hpa. injection Hr as <-. injection Ha as <-.
      destruct Hps as [[Hsame Hpa']|[(_ & Hpa' & _)|(_ & _ & m & stk & Hm' & _ & Hadd)]].
      * apply Hkeep. apply (Hmem2 i _ _ _ Hi eq_refl eq_refl). simpl. congruence.
      * congruence.
      * apply (member_added _ _ _ _ _ _ st st' Hm' Hadd). by left.
    + apply Hkeep. by eapply Hmem2.
  - (* counts *)
    intros p. pose proof (Hcount p) as Hc. unfold added_to in *.
    pose proof (sum_list_with_insert
                  (fun t => match tt_resource t with
                            | Some r => if decide (profileName r = p)
                                        then (if past_add (tt_pc t) then 1 else 0) else 0
                            | None => 0
                            end) ts i _ (thread_of c pc') Hi) as Hsum.
    simpl in Hsum.
    destruct Hps as [[Hsame Hpa']|[(Hpc & Hpa' & Hnone & Hnew')|(-> & -> & m & stk & Hm' & Hfree & Hadd)]].
    + assert (Profile_Count p st' = Profile_Count p st) as ->
        by (unfold Profile_Count; by rewrite Hsame).
      rewrite Hpa' in Hsum. lia.
    + rewrite (count_new_group _ p st st' Hnone Hnew').
      rewrite Hpc, Hpa' in Hsum. simpl in Hsum. lia.
    + rewrite (count_added _ _ _ _ p st st' Hm' Hfree Hadd). simpl in Hsum.
      destruct (decide (profileName (call_resource c) = p)); lia.
  - (* the handles *)
    intros j t r a Hj Hr Ha. destruct (Hsplit j t Hj) as [[-> ->]|(Hne & Hj' & Hother)].
    + simpl in Hr, Ha. injection Hr as <-. injection Ha as <-. simpl. done.
    + specialize (Hother r a Hr Ha). unfold tracked. rewrite (Hframe a Hother).
      by eapply Hheap.
Qed.

Lemma load_set_profiles f s a : load (set_profiles f s) a = load s a.
Proof. reflexivity. Qed.

(** The side conditions of a step that are settled by the position
    alone and by who holds the mutex. *)
Ltac track_side Hmu :=
  lazymatch goal with
  | |- _ ↔ _ =>
      first [ split; [done | let H := fresh in intros H; by apply Hmu in H]
            | split; [intros _; by apply Hmu | done]
            | by split ]
  | |- _ = _ ∨ _ =>
      first [ by left | by right; left | right; right; split; [by apply Hmu | done] ]
  | |- profiles_step _ _ _ _ _ _ => try (by left)
  | |- (_ ∨ _) → _ => try (by intros [?|?])
  | |- _ => try done
  end.

(** The invariant is kept by every step of every goroutine, when the
    calls are on distinct handles, none of them enrolled at the start,
    and no call passes its handle as the resource. *)
Lemma tsched_step_inv calls s0 cfg i :
  NoDup (call_h <$> calls) →
  Forall (fun c => member (profileName (call_resource c)) (call_h c) s0 = false) calls →
  Forall (fun c => r_addr (call_resource c) ≠ call_h c) calls →
  track_inv calls s0 cfg →
  track_inv calls s0 (tsched_step cfg i).
Proof.
  intros Hnd Hfresh Hapart Hinv. unfold tsched_step. destruct cfg as [st mu ts].
  cbn [tc_state tc_mutex tc_threads].
  destruct (ts !! i) as [t|] eqn:Hi; [| done].
  pose proof Hinv as (Hall & Hcrash & Hmu & _ & Hgrp & Hmem1 & _ & _ & Hheap).
  cbn [tc_state tc_mutex tc_threads] in *.
  destruct (threads_lookup calls ts i t Hall Hi) as (c & pc & Hci & ->).
  assert (∀ msg, pc ≠ TCrashed msg) as Hcrash'
    by (intros msg; apply (Hcrash i _ msg Hi)).
  specialize (Hmu i _ Hi).
  specialize (Hgrp i _ _ Hi eq_refl) as [Hg1 Hg2].
  specialize (Hheap i _ _ _ Hi eq_refl eq_refl) as [Hh1 Hh2].
  cbn [thread_of tt_resource tt_h tt_stack tt_pc] in *.
  fold (thread_of c) in *.
  assert (∀ pc', mkTrackThread (Some (call_resource c)) (Some (call_h c)) (call_stack c) pc'
                 = thread_of c pc') as Hfold by done.
  pose proof (track_inv_update calls s0 st mu ts i c pc) as Hupd.
  destruct pc as [| | | | | | | | | | |cl| |msg];
    cbn [Track_step pprofEnabled collectStack holds_lock past_setprofile] in *.
  - (* the nil checks pass *)
    rewrite Hfold. apply Hupd; track_side Hmu.
  - (* the first lookup *)
    unfold pprof_Lookup.
    destruct (profiles st !! profileName (call_resource c)) as [m|] eqn:Hp; rewrite Hfold;
      apply Hupd; track_side Hmu.
  - (* Lock *)
    destruct mu as [k|]; rewrite Hfold; apply Hupd; track_side Hmu.
  - (* the second lookup, under the mutex *)
    unfold pprof_Lookup.
    destruct (profiles st !! profileName (call_resource c)) as [m|] eqn:Hp; rewrite Hfold;
      apply Hupd; track_side Hmu.
  - (* NewProfile finds the name free *)
    unfold pprof_NewProfile.
    destruct (decide (profileName (call_resource c) = "")) as [He|_];
      [by apply profileName_not_empty in He |].
    rewrite (Hg1 eq_refl). rewrite Hfold. apply Hupd; track_side Hmu.
    + right. left. by repeat split; try apply Hg1.
    + intros _. cbn [set_profiles profiles]. rewrite lookup_insert_eq. eauto.
  - (* Unlock *)
    rewrite Hfold. apply Hupd; track_side Hmu.
    intros _. apply Hg2. by left.
  - (* Add finds the handle absent *)
    unfold Profile_Add.
    destruct (Hg2 (or_intror eq_refl)) as [m Hm]. rewrite Hm.
    assert (m !! call_h c = None) as Hfree.
    { destruct (m !! call_h c) as [stk|] eqn:Hin; [exfalso | done].
      assert (member (profileName (call_resource c)) (call_h c) st = true) as Hmem
        by (apply member_true; eauto).
      destruct (Hmem1 _ _ Hmem) as [H0|(j & t & r & Hj & Hr & Ha & Hp & Hpa)].
      - rewrite Forall_forall in Hfresh.
        assert (c ∈ calls) as Hin' by (by eapply list_elem_of_lookup_2).
        rewrite (Hfresh c Hin') in H0. done.
      - destruct (threads_lookup calls ts j t Hall Hj) as (c' & pc0 & Hc' & ->).
        simpl in Ha, Hpa. injection Ha as Ha.
        destruct (decide (j = i)) as [->|Hne].
        + rewrite Hi in Hj. unfold thread_of in Hj. injection Hj as _ _ _ Hpc.
          rewrite <- Hpc in Hpa. done.
        + by apply (calls_distinct_handles calls j i c' c Hnd Hc' Hci Hne). }
    rewrite Hfree. rewrite Hfold. apply Hupd; track_side Hmu.
    right. right. split; [done |]. split; [done |]. eauto.
  - (* h.profile *)
    rewrite Hfold. apply Hupd; track_side Hmu.
    + intros b Hb. by rewrite load_store_ne.
    + intros _. by rewrite load_store_eq.
  - (* h.typ *)
    rewrite Hfold. apply Hupd; track_side Hmu.
    + intros b Hb. by rewrite load_store_ne.
    + intros _. rewrite load_store_eq. simpl. by apply Hh1.
  - (* h.pcs *)
    rewrite Hfold. apply Hupd; track_side Hmu.
    + intros b Hb. by rewrite load_store_ne.
    + intros _. rewrite load_store_eq. simpl. by apply Hh1.
  - (* AddCleanup accepts the pair *)
    unfold runtime_AddCleanup.
    rewrite decide_False
      by (rewrite Forall_forall in Hapart; apply Hapart; by eapply list_elem_of_lookup_2).
    rewrite Hfold. apply Hupd; track_side Hmu.
  - (* the token is stored *)
    rewrite Hfold. apply Hupd; track_side Hmu.
    + intros b Hb. by rewrite load_store_ne.
    + intros _. rewrite load_store_eq. simpl. by apply Hh1.
    + intros _. unfold tracked. by rewrite load_store_eq.
  - (* returned *)
    rewrite Hfold. apply Hupd; track_side Hmu.
  - (* panicked: excluded *)
    by specialize (Hcrash' msg).
Qed.

Lemma run_tsched_cons i sched cfg :
  run_tsched (i :: sched) cfg = run_tsched sched (tsched_step cfg i).
Proof. reflexivity. Qed.

Lemma run_tsched_app l1 l2 cfg :
  run_tsched (l1 ++ l2) cfg = run_tsched l2 (run_tsched l1 cfg).
Proof. apply fold_left_app. Qed.

Lemma run_tsched_inv calls s0 sched : ∀ cfg,
  NoDup (call_h <$> calls) →
  Forall (fun c => member (profileName (call_resource c)) (call_h c) s0 = false) calls →
  Forall (fun c => r_addr (call_resource c) ≠ call_h c) calls →
  track_inv calls s0 cfg →
  track_inv calls s0 (run_tsched sched cfg).
Proof.
  induction sched as [|i sched IH]; intros cfg Hnd Hfresh Hapart Hinv; [done |].
  rewrite run_tsched_cons. apply IH; [done | done | done |]. by apply tsched_step_inv.
Qed.

Lemma added_to_spawn p calls :
  added_to p (map (fun c => thread_of c TEntry) calls) = 0.
Proof.
  unfold added_to. induction calls as [|c calls IH]; simpl; [done |].
  rewrite IH. by destruct (decide _).
Qed.

Lemma track_inv_spawn calls s0 : track_inv calls s0 (tspawn calls s0).
Proof.
  unfold track_inv, tspawn. cbn [tc_state tc_mutex tc_threads].
  assert (∀ i t, map (fun c => thread_of c TEntry) calls !! i = Some t →
                 ∃ c, t = thread_of c TEntry) as Hentry.
  { intros i t Hi. rewrite list_lookup_fmap in Hi.
    destruct (calls !! i) as [c|]; simpl in Hi; [| done]. injection Hi as <-. eauto. }
  split; [| split; [| split; [| split; [| split; [| split; [| split; [| split]]]]]]].
  - apply Forall2_fmap_l. apply Forall_Forall2_diag. apply Forall_forall.
    intros c _. by eexists.
  - intros i t msg Hi. by destruct (Hentry i t Hi) as (c & ->).
  - intros i t Hi. by destruct (Hentry i t Hi) as (c & ->).
  - intros i Hi. done.
  - intros i t r Hi Hr. destruct (Hentry i t Hi) as (c & ->).
    split; [done | by intros [?|?]].
  - intros p a Hm. by left.
  - intros i t r a Hi Hr Ha Hpa. by destruct (Hentry i t Hi) as (c & ->).
  - intros p. rewrite added_to_spawn. lia.
  - intros i t r a Hi Hr Ha. by destruct (Hentry i t Hi) as (c & ->).
Qed.

(** A step leaves everything as it is or brings the call closer to its end. *)
Lemma Track_step_cases i resource h stack pc mu s :
  Track_step i resource h stack pc mu s = (pc, mu, s) ∨
  tsteps_left (Track_step i resource h stack pc mu s).1.1 < tsteps_left pc.
Proof.
  destruct resource as [r|], h as [a|]; destruct pc; simpl; auto; try (right; lia).
  - destruct (pprof_Lookup _ s); simpl; right; lia.
  - destruct mu; simpl; [by left | right; lia].
  - destruct (pprof_Lookup _ s); simpl; right; lia.
  - destruct (pprof_NewProfile _ s); simpl; right; lia.
  - destruct (Profile_Add _ _ _ _ s); simpl; right; lia.
  - destruct (runtime_AddCleanup r a s) as [msg|[cl s']]; simpl; right; lia.
Qed.

(** A call that has not ended and is not waiting for the mutex moves. *)
Lemma Track_step_enabled i r a stack pc mu s :
  0 < tsteps_left pc →
  (pc = TLock → mu = None) →
  tsteps_left (Track_step i (Some r) (Some a) stack pc mu s).1.1 < tsteps_left pc.
Proof.
  intros Hpos Hlock. destruct pc; simpl in *; try lia.
  - destruct (pprof_Lookup _ s); simpl; lia.
  - rewrite (Hlock eq_refl). simpl. lia.
  - destruct (pprof_Lookup _ s); simpl; lia.
  - destruct (pprof_NewProfile _ s); simpl; lia.
  - destruct (Profile_Add _ _ _ _ s); simpl; lia.
  - destruct (runtime_AddCleanup r a s) as [msg|[cl s']]; simpl; lia.
Qed.

Lemma tsched_step_cases cfg i :
  tsched_step cfg i = cfg ∨ tmeasure (tsched_step cfg i) < tmeasure cfg.
Proof.
  unfold tsched_step, tmeasure. destruct (tc_threads cfg !! i) as [t|] eqn:Hi; [| by left].
  destruct (Track_step_cases i (tt_resource t) (tt_h t) (tt_stack t) (tt_pc t)
              (tc_mutex cfg) (tc_state cfg)) as [Heq|Hlt].
  - left. rewrite Heq. destruct cfg as [st mu ts], t as [tr th tk tp]. simpl in *.
    f_equal. by apply list_insert_id.
  - right. destruct (Track_step _ _ _ _ _ _ _) as [[pc mu] s]. simpl in *.
    pose proof (sum_list_with_insert (fun t => tsteps_left (tt_pc t)) (tc_threads cfg) i t
                  (mkTrackThread (tt_resource t) (tt_h t) (tt_stack t) pc) Hi) as Hsum.
    simpl in Hsum. lia.
Qed.

Lemma tsched_step_enabled cfg i t r a :
  tc_threads cfg !! i = Some t →
  tt_resource t = Some r → tt_h t = Some a →
  0 < tsteps_left (tt_pc t) →
  (tt_pc t = TLock → tc_mutex cfg = None) →
  tmeasure (tsched_step cfg i) < tmeasure cfg.
Proof.
  intros Hi Hr Ha Hpos Hlock. unfold tsched_step, tmeasure. rewrite Hi, Hr, Ha.
  pose proof (Track_step_enabled i r a (tt_stack t) (tt_pc t) (tc_mutex cfg) (tc_state cfg)
                Hpos Hlock) as Hlt.
  destruct (Track_step _ _ _ _ _ _ _) as [[pc mu] s]. simpl in *.
  pose proof (sum_list_with_insert (fun t => tsteps_left (tt_pc t)) (tc_threads cfg) i t
                (mkTrackThread (Some r) (Some a) (tt_stack t) pc) Hi) as Hsum.
  simpl in Hsum. lia.
Qed.

Lemma run_tsched_measure sched : ∀ cfg,
  (tmeasure (run_tsched sched cfg) ≤ tmeasure cfg)%nat.
Proof.
  induction sched as [|i sched IH]; intros cfg; [done |].
  rewrite run_tsched_cons. specialize (IH (tsched_step cfg i)).
  destruct (tsched_step_cases cfg i) as [Heq|Hlt]; [rewrite Heq in *; done | lia].
Qed.

(** A run of steps moves some call, or every step of it changed nothing. *)
Lemma run_tsched_progress sched : ∀ cfg,
  tmeasure (run_tsched sched cfg) < tmeasure cfg ∨
  (∀ i, i ∈ sched → tsched_step cfg i = cfg).
Proof.
  induction sched as [|i sched IH]; intros cfg.
  - right. intros i Hi. by apply not_elem_of_nil in Hi.
  - rewrite run_tsched_cons. destruct (tsched_step_cases cfg i) as [Heq|Hlt].
    + rewrite Heq. destruct (IH cfg) as [Hlt|Hall]; [by left | right].
      intros j Hj. apply elem_of_cons in Hj as [->|Hj]; [done | by apply Hall].
    + left. pose proof (run_tsched_measure sched (tsched_step cfg i)). lia.
Qed.

Lemma sum_list_with_pos {A} (f : A → nat) (l : list A) :
  0 < sum_list_with f l → ∃ i x, l !! i = Some x ∧ 0 < f x.
Proof.
  induction l as [|y l IH]; simpl; [lia |]. intros Hpos.
  destruct (decide (0 < f y)) as [Hy|Hy].
  - exists 0, y. done.
  - destruct IH as (i & x & Hi & Hx); [lia |]. exists (S i), x. done.
Qed.

Lemma sum_list_with_zero {A} (f : A → nat) (l : list A) x :
  sum_list_with f l = 0 → x ∈ l → f x = 0.
Proof.
  induction l as [|y l IH]; simpl; intros Hz Hin; [by apply not_elem_of_nil in Hin |].
  apply elem_of_cons in Hin as [->|Hin]; [lia | apply IH; [lia | done]].
Qed.

(** While a call has not ended, some goroutine can move: the holder of
    the mutex if it is held, any unfinished goroutine if it is free. *)
Lemma track_inv_enabled calls s0 cfg :
  track_inv calls s0 cfg →
  0 < tmeasure cfg →
  ∃ i, i < length calls ∧ tmeasure (tsched_step cfg i) < tmeasure cfg.
Proof.
  intros (Hall & _ & Hmu & Hmu2 & _) Hpos.
  destruct (tc_mutex cfg) as [k|] eqn:Hk.
  - destruct (Hmu2 k eq_refl) as [t Ht].
    destruct (threads_lookup calls _ k t Hall Ht) as (c & pc & Hc & ->).
    assert (holds_lock pc = true) as Hhold by (by apply (Hmu k _ Ht)).
    exists k. split; [by eapply lookup_lt_Some |].
    eapply (tsched_step_enabled cfg k _ _ _ Ht); [done | done | |].
    + simpl. destruct pc; simpl in *; try done; lia.
    + simpl. intros ->. done.
  - destruct (sum_list_with_pos _ _ Hpos) as (i & t & Ht & Hleft).
    destruct (threads_lookup calls _ i t Hall Ht) as (c & pc & Hc & ->).
    exists i. split; [by eapply lookup_lt_Some |].
    eapply (tsched_step_enabled cfg i _ _ _ Ht); [done | done | done |].
    intros _. done.
Qed.

(** A round in which every goroutine gets a turn moves some call. *)
Lemma round_decreases calls s0 cfg :
  track_inv calls s0 cfg →
  0 < tmeasure cfg →
  tmeasure (run_tsched (seq 0 (length calls)) cfg) < tmeasure cfg.
Proof.
  intros Hinv Hpos.
  destruct (run_tsched_progress (seq 0 (length calls)) cfg) as [Hlt|Hall]; [done |].
  destruct (track_inv_enabled calls s0 cfg Hinv Hpos) as (i & Hi & Hlt).
  rewrite Hall in Hlt; [lia |]. apply elem_of_seq. lia.
Qed.

Lemma round_robin_measure calls s0 k : ∀ cfg,
  NoDup (call_h <$> calls) →
  Forall (fun c => member (profileName (call_resource c)) (call_h c) s0 = false) calls →
  Forall (fun c => r_addr (call_resource c) ≠ call_h c) calls →
  track_inv calls s0 cfg →
  (tmeasure (run_tsched (round_robin (length calls) k) cfg) ≤ tmeasure cfg - k)%nat.
Proof.
  induction k as [|k IH]; intros cfg Hnd Hfresh Hapart Hinv.
  - simpl. lia.
  - cbn [round_robin]. rewrite run_tsched_app.
    pose proof (run_tsched_inv calls s0 (seq 0 (length calls)) cfg Hnd Hfresh Hapart Hinv)
      as Hinv1.
    specialize (IH _ Hnd Hfresh Hapart Hinv1).
    destruct (decide (0 < tmeasure cfg)) as [Hpos|Hz].
    + pose proof (round_decreases calls s0 cfg Hinv Hpos). lia.
    + pose proof (run_tsched_measure (seq 0 (length calls)) cfg). lia.
Qed.

Lemma tmeasure_spawn calls s0 : tmeasure (tspawn calls s0) = 12 * length calls.
Proof.
  unfold tmeasure, tspawn. simpl. induction calls as [|c calls IH]; simpl; [done |].
  rewrite IH. lia.
Qed.

(** With no call left to move and none panicked, all have returned. *)
Lemma track_inv_all_done calls s0 cfg :
  track_inv calls s0 cfg → tmeasure cfg = 0 → all_tdone cfg = true.
Proof.
  intros (_ & Hcrash & _) Hz. unfold all_tdone. apply forallb_forall. intros t Hin.
  apply list_elem_of_In in Hin.
  pose proof (sum_list_with_zero _ _ t Hz Hin) as Ht. simpl in Ht.
  apply list_elem_of_lookup in Hin as [i Hi].
  destruct (tt_pc t) eqn:Hpc; simpl in Ht; try lia; try done.
  by specialize (Hcrash i t msg Hi).
Qed.

Lemma added_to_all_done p (calls : list Call) (ts : list TrackThread) :
  Forall2 (fun t c => ∃ pc, t = thread_of c pc) ts calls →
  Forall (fun t => tt_pc t = TDone) ts →
  added_to p ts = calls_for p calls.
Proof.
  unfold added_to, calls_for.
  induction 1 as [|t c ts calls (pc & ->) _ IH]; intros Hdone; [done |].
  apply Forall_cons in Hdone as [Hpc Hdone]. simpl in *. subst pc.
  rewrite (IH Hdone). simpl. by destruct (decide _).
Qed.

(** X12: concurrent first use.  Any number of goroutines call [Track],
    each on a handle of its own that is in no group yet and is not the
    resource it is passed with, for resources of any types.  Under
    every schedule no call panics (the group of a
    type is created once, under the mutex, however the lookups
    interleave), and when all calls have returned the mutex is free,
    every group's count has grown by the number of calls for its type,
    and every handle is a member of its group, names it, and holds a
    token.  Giving every goroutine a turn, round after round, twelve
    rounds per call at most, makes all calls return. *)
Theorem concurrent_Track calls s0 sched :
  NoDup (call_h <$> calls) →
  Forall (fun c => member (profileName (call_resource c)) (call_h c) s0 = false) calls →
  Forall (fun c => r_addr (call_resource c) ≠ call_h c) calls →
  let cfg := run_tsched sched (tspawn calls s0) in
  no_tcrash cfg = true ∧
  (all_tdone cfg = true →
     tc_mutex cfg = None ∧
     (∀ p, Profile_Count p (tc_state cfg) = Profile_Count p s0 + calls_for p calls) ∧
     Forall (fun c =>
               member (profileName (call_resource c)) (call_h c) (tc_state cfg) = true ∧
               profile (load (tc_state cfg) (call_h c)) = profileName (call_resource c) ∧
               tracked (tc_state cfg) (call_h c) = true) calls) ∧
  all_tdone (run_tsched (round_robin (length calls) (12 * length calls))
               (tspawn calls s0)) = true.
Proof.
  intros Hnd Hfresh Hapart cfg.
  pose proof (run_tsched_inv calls s0 sched _ Hnd Hfresh Hapart (track_inv_spawn calls s0))
    as Hinv.
  fold cfg in Hinv.
  split; [| split].
  - destruct Hinv as (_ & Hcrash & _). unfold no_tcrash. apply forallb_forall.
    intros t Hin. apply list_elem_of_In, list_elem_of_lookup in Hin as [i Hi].
    destruct (tt_pc t) eqn:Hpc; try done. by specialize (Hcrash i t msg Hi).
  - intros Hdone.
    destruct Hinv as (Hall & _ & Hmu & Hmu2 & _ & _ & Hmem2 & Hcount & Hheap).
    assert (Forall (fun t => tt_pc t = TDone) (tc_threads cfg)) as Hdone'.
    { apply Forall_forall. intros t Hin. unfold all_tdone in Hdone.
      rewrite forallb_forall in Hdone. apply list_elem_of_In in Hin.
      specialize (Hdone t Hin). by destruct (tt_pc t). }
    split; [| split].
    + destruct (tc_mutex cfg) as [k|] eqn:Hk; [| done].
      destruct (Hmu2 k eq_refl) as [t Ht].
      assert (holds_lock (tt_pc t) = true) as Hhold by (by apply (Hmu k t Ht)).
      rewrite Forall_forall in Hdone'.
      rewrite (Hdone' t) in Hhold; [done | by eapply list_elem_of_lookup_2].
    + intros p. rewrite Hcount. f_equal. by apply added_to_all_done.
    + apply Forall_forall. intros c Hc. apply list_elem_of_lookup in Hc as [i Hc].
      destruct (Forall2_lookup_r _ _ _ _ _ Hall Hc) as (t & Ht & pc & ->).
      rewrite Forall_forall in Hdone'.
      assert (pc = TDone) as -> by (apply (Hdone' _ (list_elem_of_lookup_2 _ _ _ Ht))).
      destruct (Hheap i _ _ _ Ht eq_refl eq_refl) as [Hp Htr].
      split; [by apply (Hmem2 i _ _ _ Ht eq_refl eq_refl) |].
      split; [by apply Hp | by apply Htr].
  - pose proof (round_robin_measure calls s0 (12 * length calls) _ Hnd Hfresh Hapart
                  (track_inv_spawn calls s0)) as Hle.
    rewrite tmeasure_spawn in Hle.
    eapply track_inv_all_done; [| lia].
    apply run_tsched_inv; [done | done | done | apply track_inv_spawn].
Qed.

Lemma concurrent_Track_witness :
  NoDup (call_h <$> demo_calls) ∧
  Forall (fun c => member (profileName (call_resource c)) (call_h c) init_state = false)
    demo_calls ∧
  Forall (fun c => r_addr (call_resource c) ≠ call_h c) demo_calls ∧
  all_tdone (run_tsched demo_tsched (tspawn demo_calls init_state)) = true ∧
  Profile_Count (profileName demo_resource)
    (tc_state (run_tsched demo_tsched (tspawn demo_calls init_state))) = 2.
Proof.
  assert (NoDup (call_h <$> demo_calls)) as H1.
  { simpl. apply NoDup_cons_2; [by intros ?%list_elem_of_singleton |].
    apply NoDup_singleton. }
  assert (Forall (fun c => member (profileName (call_resource c)) (call_h c) init_state = false)
            demo_calls) as H2 by (repeat constructor).
  assert (Forall (fun c => r_addr (call_resource c) ≠ call_h c) demo_calls) as H4
    by (repeat constructor; simpl; lia).
  assert (all_tdone (run_tsched demo_tsched (tspawn demo_calls init_state)) = true) as H3
    by (vm_compute; reflexivity).
  split; [exact H1 |]. split; [exact H2 |]. split; [exact H4 |]. split; [exact H3 |].
  destruct (concurrent_Track demo_calls init_state demo_tsched H1 H2 H4) as (_ & Hdone & _).
  destruct (Hdone H3) as (_ & Hcount & _).
  rewrite Hcount. reflexivity.
Defined.







